(** * The release publisher [.ci/update_release.py]

    A shallow embedding of the CI script that attaches the built [*.gz]
    artifacts to the GitHub release tagged with the contents of [VERSION].

    The script is a straight line of calls into its surroundings (process
    environment, file system, configuration, GitHub API).  It is written here
    in a state-and-exception monad over a [state] which holds the file system,
    the file objects the script has opened, the assets stored on the hosting
    side, and the trace of calls the script has made.  The collaborators that
    are outside the script are the fields of a [World]. *)

From Stdlib Require Import Ascii String.
From stdpp Require Import base list strings gmap.

Local Open Scope string_scope.
Local Open Scope list_scope.

Set Warnings "-register-all".

(** ** Strings *)

Module Str.

(** [str.split(sep)] for a one-character separator: cut at every
    occurrence, keep empty pieces. *)
Fixpoint split (sep : ascii) (s : string) : list string :=
  match s with
  | EmptyString => [EmptyString]
  | String c s' =>
      if Ascii.eqb c sep then EmptyString :: split sep s'
      else match split sep s' with
           | w :: ws => String c w :: ws
           | [] => [String c EmptyString]
           end
  end.

(** Number of occurrences of a character. *)
Fixpoint count (c : ascii) (s : string) : nat :=
  match s with
  | EmptyString => 0
  | String d s' => (if Ascii.eqb d c then 1 else 0) + count c s'
  end.

(** [sep.join(parts)] *)
Fixpoint join (sep : string) (parts : list string) : string :=
  match parts with
  | [] => ""
  | [w] => w
  | w :: ws => w +:+ sep +:+ join sep ws
  end.

(** Shell-style matching of one file name, as [pathlib] does for one
    pattern component: [*] stands for any run of characters (also none, and
    also a leading dot), [?] for exactly one, any other character for
    itself.  Bracket classes are not modelled; the script's pattern has
    none.  Matching is case sensitive (POSIX flavour). *)
Fixpoint fnmatch (pat : string) (name : string) {struct pat} : bool :=
  match pat with
  | EmptyString => match name with EmptyString => true | _ => false end
  | String c pat' =>
      if Ascii.eqb c "*" then
        (fix star (n : string) : bool :=
           fnmatch pat' n
           || match n with
              | EmptyString => false
              | String _ n' => star n'
              end) name
      else if Ascii.eqb c "?" then
        match name with
        | EmptyString => false
        | String _ n' => fnmatch pat' n'
        end
      else
        match name with
        | EmptyString => false
        | String d n' => Ascii.eqb c d && fnmatch pat' n'
        end
  end.

Definition CR : ascii := "013"%char.
Definition LF : ascii := "010"%char.

(** What reading in text mode with the default [newline=None] does to the
    decoded text: every carriage return followed by a line feed, and every
    other carriage return, becomes one line feed; nothing else changes. *)
Fixpoint universal_newlines (s : string) : string :=
  match s with
  | EmptyString => EmptyString
  | String c s' =>
      if Ascii.eqb c CR then
        String LF
          match s' with
          | EmptyString => EmptyString
          | String d s'' =>
              if Ascii.eqb d LF then universal_newlines s''
              else universal_newlines s'
          end
      else String c (universal_newlines s')
  end.

(** [s] ends with [suf]. *)
Definition ends_with (suf s : string) : Prop := exists pre, s = pre +:+ suf.

(** The same as a test: compare [suf] with every tail of [s]. *)
Fixpoint has_suffix (suf s : string) : bool :=
  String.eqb suf s
  || match s with
     | EmptyString => false
     | String _ s' => has_suffix suf s'
     end.

(** A pattern without wildcards. *)
Fixpoint literal (pat : string) : bool :=
  match pat with
  | EmptyString => true
  | String c pat' =>
      negb (Ascii.eqb c "*") && negb (Ascii.eqb c "?") && literal pat'
  end.

End Str.

(** ** Paths and the file system *)

(** An absolute path, as its components below the root. *)
Definition path := list string.

(** [p / name] *)
Definition joinpath (p : path) (child : string) : path := p ++ [child].

(** [p.name]: the final component, empty for the root. *)
Definition name (p : path) : string := List.last p "".

(** [str(p)] *)
Definition path_str (p : path) : string := "/" +:+ Str.join "/" p.

(** A file system tree.  The entries of a directory are kept in the order
    in which the operating system lists them. *)
Inductive node : Type :=
| File (content : string)
| Dir (entries : list (string * node)).

Fixpoint assoc {A : Type} (k : string) (l : list (string * A)) : option A :=
  match l with
  | [] => None
  | (k', v) :: l' => if String.eqb k k' then Some v else assoc k l'
  end.

Fixpoint set_entry {A : Type} (k : string) (v : A) (l : list (string * A))
  : list (string * A) :=
  match l with
  | [] => [(k, v)]
  | (k', v') :: l' =>
      if String.eqb k k' then (k, v) :: l' else (k', v') :: set_entry k v l'
  end.

Fixpoint lookup_node (n : node) (p : path) : option node :=
  match p with
  | [] => Some n
  | c :: p' =>
      match n with
      | Dir es =>
          match assoc c es with
          | Some n' => lookup_node n' p'
          | None => None
          end
      | File _ => None
      end
  end.

(** Create the file at [p] or replace its content; the parent directory has
    to exist and [p] must not be a directory. *)
Fixpoint write_file (n : node) (p : path) (c : string) : option node :=
  match p with
  | [] => match n with File _ => Some (File c) | Dir _ => None end
  | x :: p' =>
      match n with
      | File _ => None
      | Dir es =>
          match p' with
          | [] =>
              match assoc x es with
              | Some (Dir _) => None
              | _ => Some (Dir (set_entry x (File c) es))
              end
          | _ :: _ =>
              match assoc x es with
              | Some child =>
                  match write_file child p' c with
                  | Some child' => Some (Dir (set_entry x child' es))
                  | None => None
                  end
              | None => None
              end
          end
      end
  end.

(** The names in a directory, in listing order; nothing for a path that is
    not a directory. *)
Definition listdir (root : node) (dir : path) : list string :=
  match lookup_node root dir with
  | Some (Dir es) => map fst es
  | _ => []
  end.

(** ** What the script talks to *)

(** A file object: the path it was opened on and the mode. *)
Record handle : Type := Handle { h_path : path; h_mode : string }.

#[global] Instance handle_eq_dec : EqDecision handle.
Proof. solve_decision. Defined.

(** An asset stored on a release. *)
Record asset : Type := Asset {
  a_release : nat;
  a_content_type : string;
  a_name : string;
  a_data : string
}.

(** The calls of the script that reach outside the process, in the order in
    which it makes them.  A call is recorded when it is made, whether or not
    it then raises.  [ERelease] is the one call the script does not write
    down: the runtime closing a file object that nothing refers to any
    more. *)
Inductive event : Type :=
| EReadText (p : path)
| EGithubCfg (cfg_name : string)
| ERepository (owner repo : string)
| EReleaseFromTag (tag : string)
| EGlob (dir : path) (pattern : string)
| EPrint (line : string)
| EOpen (p : path) (mode : string)
| EUploadAsset (release : nat) (content_type asset_name : string) (asset : handle)
| ERelease (h : handle).

(** The exceptions that can end the script, by the call that raises. *)
Inductive exn : Type :=
| EnvNotSet (var : string)
| ValueError (parts : nat)
| OSError (p : path)
| UnicodeDecodeError (p : path)
| CfgLookupFailed (cfg_name : string)
| RepositoryFailed (owner repo : string)
| ReleaseNotFound (tag : string)
| UploadRejected (asset_name : string).

Inductive error_kind : Type :=
| ConfigurationError
| FileAccessError
| ReleaseNotFoundError
| UploadError
| CollaboratorError.

(** The script has no exception classes of its own; section 7 of the
    specification sorts its failures into these kinds (missing variable or
    malformed owner/name string, unreadable file, no release for the tag,
    refused upload).  Failures of the configuration resolver and of the API
    client's construction are not named there. *)
Definition kind_of (e : exn) : error_kind :=
  match e with
  | EnvNotSet _ => ConfigurationError
  | ValueError _ => ConfigurationError
  | OSError _ => FileAccessError
  | UnicodeDecodeError _ => FileAccessError
  | CfgLookupFailed _ => CollaboratorError
  | RepositoryFailed _ _ => CollaboratorError
  | ReleaseNotFound _ => ReleaseNotFoundError
  | UploadRejected _ => UploadError
  end.

(** The collaborators: process environment, path resolution, the codec of
    the locale (from the bytes of a file to its text), the configuration
    factory and the GitHub API.  [None] stands for a call that raises. *)
Record World : Type := {
  environ : gmap string string;
  resolve : string -> path;
  decode : string -> option string;
  github : string -> option string;
  repository : string -> string -> string -> option nat;
  release_from_tag : nat -> string -> option nat;
  upload_accepts : list asset -> asset -> bool
}.

Record state : Type := State {
  fs : node;
  handles : list handle;
  assets : list asset;
  trace : list event
}.

Definition set_fs (n : node) (s : state) : state :=
  State n (handles s) (assets s) (trace s).
Definition add_handle (h : handle) (s : state) : state :=
  State (fs s) (h :: handles s) (assets s) (trace s).
Fixpoint remove_first (h : handle) (l : list handle) : list handle :=
  match l with
  | [] => []
  | h' :: l' => if decide (h = h') then l' else h' :: remove_first h l'
  end.
Definition remove_handle (h : handle) (s : state) : state :=
  State (fs s) (remove_first h (handles s)) (assets s) (trace s).
Definition add_asset (a : asset) (s : state) : state :=
  State (fs s) (handles s) (assets s ++ [a]) (trace s).
Definition add_event (e : event) (s : state) : state :=
  State (fs s) (handles s) (assets s) (trace s ++ [e]).

(** ** The monad of the script *)

Inductive result (A : Type) : Type :=
| Ok (a : A)
| Raise (e : exn).
Arguments Ok {A} a.
Arguments Raise {A} e.

Definition M (A : Type) : Type := state -> result A * state.

Definition ret {A : Type} (a : A) : M A := fun s => (Ok a, s).

Definition raise {A : Type} (e : exn) : M A := fun s => (Raise e, s).

Definition bind {A B : Type} (m : M A) (k : A -> M B) : M B :=
  fun s =>
    match m s with
    | (Ok a, s') => k a s'
    | (Raise e, s') => (Raise e, s')
    end.

Declare Scope script_scope.
Delimit Scope script_scope with script.
Notation "x <- m ;; k" := (bind m (fun x => k))
  (at level 100, m at next level, right associativity) : script_scope.
Notation "m ;;; k" := (bind m (fun _ => k))
  (at level 100, right associativity) : script_scope.
Local Open Scope script_scope.

Definition log (e : event) : M unit := fun s => (Ok tt, add_event e s).

(** [for x in l: body(x)] *)
Fixpoint for_each {A : Type} (l : list A) (body : A -> M unit) : M unit :=
  match l with
  | [] => ret tt
  | x :: l' => body x ;;; for_each l' body
  end.

(** [a, b = parts] *)
Definition unpack2 (parts : list string) : M (string * string) :=
  match parts with
  | [a; b] => ret (a, b)
  | _ => raise (ValueError (length parts))
  end.

(** ** The calls the script makes *)

Definition mode_has (c : ascii) (mode : string) : bool :=
  existsb (Ascii.eqb c) (list_ascii_of_string mode).

(** What opening [p] in [mode] does to the file system: [w] creates or
    truncates, [x] creates and refuses an existing entry, [a] creates when
    the file is missing, a plain read needs an existing regular file. *)
Definition open_effect (mode : string) (root : node) (p : path) : option node :=
  if mode_has "w" mode then write_file root p ""
  else if mode_has "x" mode then
    match lookup_node root p with
    | None => write_file root p ""
    | Some _ => None
    end
  else if mode_has "a" mode then
    match lookup_node root p with
    | Some (File _) => Some root
    | Some (Dir _) => None
    | None => write_file root p ""
    end
  else
    match lookup_node root p with
    | Some (File _) => Some root
    | _ => None
    end.

(** Whether a call of the script is one that can change the local file
    system. *)
Definition writes_fs (e : event) : bool :=
  match e with
  | EOpen _ mode =>
      mode_has "w" mode || mode_has "x" mode || mode_has "a" mode
      || mode_has "+" mode
  | _ => false
  end.

Definition is_upload (e : event) : bool :=
  match e with EUploadAsset _ _ _ _ => true | _ => false end.

Section Calls.

Variable w : World.

(** Modelled from the spec: [util.check_env] is imported by the script
    and is not among the sources; the specification makes the three
    variables required and has the run fail fast when one is absent. *)
Definition check_env (var : string) : M string :=
  match environ w !! var with
  | Some v => ret v
  | None => raise (EnvNotSet var)
  end.

(** [pathlib.Path(p).resolve()] *)
Definition path_resolve (p : string) : M path := ret (resolve w p).

(** [p.read_text()]: the file is opened in text mode with the defaults,
    read to its end and closed; its bytes are decoded with the codec of the
    locale and the line ends are translated. *)
Definition read_text (p : path) : M string :=
  log (EReadText p) ;;;
  fun s =>
    match lookup_node (fs s) p with
    | Some (File bytes) =>
        match decode w bytes with
        | Some text => (Ok (Str.universal_newlines text), s)
        | None => (Raise (UnicodeDecodeError p), s)
        end
    | _ => (Raise (OSError p), s)
    end.

(** [util.ctx().cfg_factory().github(cfg_name)] *)
Definition cfg_factory_github (cfg_name : string) : M string :=
  log (EGithubCfg cfg_name) ;;;
  match github w cfg_name with
  | Some cfg => ret cfg
  | None => raise (CfgLookupFailed cfg_name)
  end.

(** [GitHubRepositoryHelper(owner=.., name=.., github_cfg=..).repository] *)
Definition GitHubRepositoryHelper (owner repo github_cfg : string) : M nat :=
  log (ERepository owner repo) ;;;
  match repository w owner repo github_cfg with
  | Some r => ret r
  | None => raise (RepositoryFailed owner repo)
  end.

(** [repository.release_from_tag(tag)] *)
Definition repository_release_from_tag (repo : nat) (tag : string) : M nat :=
  log (EReleaseFromTag tag) ;;;
  match release_from_tag w repo tag with
  | Some rel => ret rel
  | None => raise (ReleaseNotFound tag)
  end.

(** [list(dir.glob(pattern))] for a pattern of one component: the
    entries of [dir] itself whose name matches, in listing order. *)
Definition glob (dir : path) (pattern : string) : M (list path) :=
  log (EGlob dir pattern) ;;;
  fun s =>
    (Ok (map (joinpath dir)
             (List.filter (Str.fnmatch pattern) (listdir (fs s) dir))), s).

(** [print(line)] *)
Definition print (line : string) : M unit := log (EPrint line).

(** [p.open(mode=mode)] *)
Definition path_open (p : path) (mode : string) : M handle :=
  log (EOpen p mode) ;;;
  fun s =>
    match open_effect mode (fs s) p with
    | Some root' =>
        let h := Handle p mode in
        (Ok h, add_handle h (set_fs root' s))
    | None => (Raise (OSError p), s)
    end.

(** [release.upload_asset(content_type=.., name=.., asset=..)]: the API
    client reads the file object to its end and posts the bytes; the
    asset is stored when the hosting side accepts it. *)
Definition upload_asset (rel : nat) (content_type asset_name : string)
    (h : handle) : M unit :=
  log (EUploadAsset rel content_type asset_name h) ;;;
  fun s =>
    match lookup_node (fs s) (h_path h) with
    | Some (File data) =>
        let a := Asset rel content_type asset_name data in
        if upload_accepts w (assets s) a
        then (Ok tt, add_asset a s)
        else (Raise (UploadRejected asset_name), s)
    | _ => (Raise (OSError (h_path h)), s)
    end.

(** ** The script *)

Definition OUTPUT_FILE_NAME : string := "build-result".
Definition VERSION_FILE_NAME : string := "VERSION".

Definition progress_line (output_file : path) : string :=
  "Attaching file " +:+ path_str output_file +:+ " to the GitHub release".

(** The end of the call statement of lines 37 to 41: the file object was
    referred to by the argument only; when the call has returned, nothing
    refers to it and the runtime closes it. *)
Definition release (h : handle) : M unit :=
  log (ERelease h) ;;;
  fun s => (Ok tt, remove_handle h s).

(** The body of the loop. *)
Definition attach (gh_release : nat) (output_file : path) : M unit :=
  print (progress_line output_file) ;;;
  asset <- path_open output_file "rb" ;;
  upload_asset gh_release "application/gzip" (name output_file) asset ;;;
  release asset.

Definition update_release : M unit :=
  repo_owner_and_name <- check_env "SOURCE_GITHUB_REPO_OWNER_AND_NAME" ;;
  repo_dir <- check_env "MAIN_REPO_DIR" ;;
  output_dir <- check_env "OUT_PATH" ;;
  owner_name <- unpack2 (Str.split "/" repo_owner_and_name) ;;
  let '(repo_owner, repo_name) := owner_name in
  repo_path <- path_resolve repo_dir ;;
  let version_file_path := joinpath repo_path VERSION_FILE_NAME in
  version_file_contents <- read_text version_file_path ;;
  github_cfg <- cfg_factory_github "github_com" ;;
  github_repo <- GitHubRepositoryHelper repo_owner repo_name github_cfg ;;
  gh_release <- repository_release_from_tag github_repo version_file_contents ;;
  output_path <- path_resolve output_dir ;;
  output_files <- glob output_path "*.gz" ;;
  for_each output_files (attach gh_release).

End Calls.


(** ** Vocabulary of the statements *)

Definition add_events (t : list event) (s : state) : state :=
  State (fs s) (handles s) (assets s) (trace s ++ t).

(** The immediate children of [dir] whose name ends in [.gz], in listing
    order: the artifact set in the specification's words. *)
Definition gz_children (root : node) (dir : path) : list path :=
  map (joinpath dir) (List.filter (Str.has_suffix ".gz") (listdir root dir)).

(** The files the script enumerates (line 34). *)
Definition output_files (root : node) (dir : path) : list path :=
  map (joinpath dir) (List.filter (Str.fnmatch "*.gz") (listdir root dir)).

(** The text of the regular file at [p] as text mode yields it: its bytes
    decoded, line ends translated. *)
Definition text_at (w : World) (root : node) (p : path) : option string :=
  match lookup_node root p with
  | Some (File bytes) =>
      match decode w bytes with
      | Some text => Some (Str.universal_newlines text)
      | None => None
      end
  | _ => None
  end.

(** The text of the [VERSION] file of the repository named by
    [MAIN_REPO_DIR], when there is one. *)
Definition version_text (w : World) (root : node) : option string :=
  match environ w !! "MAIN_REPO_DIR" with
  | Some repo_dir => text_at w root (joinpath (resolve w repo_dir) "VERSION")
  | None => None
  end.

(** The file object the loop passes for [f]. *)
Definition asset_handle (f : path) : handle := Handle f "rb".

(** The upload call the loop makes for [f]. *)
Definition upload_call (rel : nat) (f : path) : event :=
  EUploadAsset rel "application/gzip" (name f) (asset_handle f).

(** The calls of a turn up to the upload call: all the calls of a turn
    whose upload raises. *)
Definition refused_events (rel : nat) (f : path) : list event :=
  [EPrint (progress_line f); EOpen f "rb"; upload_call rel f].

(** The calls of one complete turn of the loop. *)
Definition attach_events (rel : nat) (f : path) : list event :=
  [EPrint (progress_line f); EOpen f "rb"; upload_call rel f;
   ERelease (asset_handle f)].

Definition file_data (root : node) (f : path) : string :=
  match lookup_node root f with
  | Some (File d) => d
  | _ => ""
  end.

(** The asset a successful turn of the loop stores for [f]. *)
Definition asset_of (root : node) (rel : nat) (f : path) : asset :=
  Asset rel "application/gzip" (name f) (file_data root f).

(** The state after the files [done] have all been attached. *)
Definition after_uploads (rel : nat) (done : list path) (s : state) : state :=
  State (fs s)
        (handles s)
        (assets s ++ map (asset_of (fs s) rel) done)
        (trace s ++ flat_map (attach_events rel) done).

(** The calls made before the loop is entered. *)
Definition lookup_phase (e : event) : bool :=
  match e with
  | EReadText _ | EGithubCfg _ | ERepository _ _ | EReleaseFromTag _ => true
  | _ => false
  end.

(** The files for which an upload call was made. *)
Definition attempted (t : list event) : list path :=
  omap (fun e => match e with
                 | EUploadAsset _ _ _ h => Some (h_path h)
                 | _ => None
                 end) t.

(** The files that were opened. *)
Definition opened (t : list event) : list path :=
  omap (fun e => match e with EOpen p _ => Some p | _ => None end) t.

(** The lines printed. *)
Definition printed (t : list event) : list string :=
  omap (fun e => match e with EPrint l => Some l | _ => None end) t.


(** The upload calls. *)
Definition uploads (t : list event) : list event := List.filter is_upload t.

(** Opens and closes take turns, starting with an open when [held] is
    [false]: no file is opened while another is still open. *)
Fixpoint alternates (held : bool) (t : list event) : bool :=
  match t with
  | [] => true
  | EOpen _ _ :: t' => negb held && alternates true t'
  | ERelease _ :: t' => held && alternates false t'
  | _ :: t' => alternates held t'
  end.

(** The directory scans. *)
Definition globbed (t : list event) : list (path * string) :=
  omap (fun e => match e with EGlob d pat => Some (d, pat) | _ => None end) t.

(** The tags looked up. *)
Definition looked_up (t : list event) : list string :=
  omap (fun e => match e with EReleaseFromTag tag => Some tag | _ => None end) t.

(** Everything before the upload loop went well: the three variables are
    set, the owner/name string unpacks, [VERSION] holds [tag], credentials
    and repository resolve, and the release [rel] carries the tag. *)
Definition reaches_loop (w : World) (s : state) (owner repo tag : string)
    (rel : nat) (out : path) : Prop :=
  exists repo_owner_and_name repo_dir output_dir github_cfg github_repo,
    environ w !! "SOURCE_GITHUB_REPO_OWNER_AND_NAME" = Some repo_owner_and_name /\
    environ w !! "MAIN_REPO_DIR" = Some repo_dir /\
    environ w !! "OUT_PATH" = Some output_dir /\
    Str.split "/" repo_owner_and_name = [owner; repo] /\
    text_at w (fs s) (joinpath (resolve w repo_dir) "VERSION") = Some tag /\
    github w "github_com" = Some github_cfg /\
    repository w owner repo github_cfg = Some github_repo /\
    release_from_tag w github_repo tag = Some rel /\
    out = resolve w output_dir.

(** The path of the version file (line 18). *)
Definition version_file (w : World) : path :=
  match environ w !! "MAIN_REPO_DIR" with
  | Some repo_dir => joinpath (resolve w repo_dir) "VERSION"
  | None => []
  end.

(** Everything before the release lookup went well. *)
Definition reaches_lookup (w : World) (s : state) (owner repo tag : string)
    (github_repo : nat) : Prop :=
  exists repo_owner_and_name repo_dir output_dir github_cfg,
    environ w !! "SOURCE_GITHUB_REPO_OWNER_AND_NAME" = Some repo_owner_and_name /\
    environ w !! "MAIN_REPO_DIR" = Some repo_dir /\
    environ w !! "OUT_PATH" = Some output_dir /\
    Str.split "/" repo_owner_and_name = [owner; repo] /\
    text_at w (fs s) (joinpath (resolve w repo_dir) "VERSION") = Some tag /\
    github w "github_com" = Some github_cfg /\
    repository w owner repo github_cfg = Some github_repo.

(** The calls made up to the release lookup. *)
Definition lookup_events (w : World) (owner repo tag : string) : list event :=
  [EReadText (version_file w); EGithubCfg "github_com";
   ERepository owner repo; EReleaseFromTag tag].

(** The variables the script requires (lines 11 to 13). *)
Definition required_env : list string :=
  ["SOURCE_GITHUB_REPO_OWNER_AND_NAME"; "MAIN_REPO_DIR"; "OUT_PATH"].

(** The failures of lines 11 to 15: a variable is not set, or the
    owner/name string does not unpack into two names. *)
Definition config_failure (w : World) (e : exn) : Prop :=
  (exists var,
      e = EnvNotSet var /\ environ w !! var = None /\ In var required_env)
  \/ (exists repo_owner_and_name,
         environ w !! "SOURCE_GITHUB_REPO_OWNER_AND_NAME"
           = Some repo_owner_and_name /\
         e = ValueError (length (Str.split "/" repo_owner_and_name)) /\
         length (Str.split "/" repo_owner_and_name) <> 2).

(** How a run ends before the loop: on the variables or the owner/name
    string, before any call, or later, after the version file has been
    read. *)
Definition ends_before_loop (w : World) (e : exn) (t : list event) : Prop :=
  (t = [] /\ config_failure w e)
  \/ (exists t' repo_owner_and_name owner repo,
         t = EReadText (version_file w) :: t' /\
         kind_of e <> ConfigurationError /\
         environ w !! "SOURCE_GITHUB_REPO_OWNER_AND_NAME"
           = Some repo_owner_and_name /\
         Str.split "/" repo_owner_and_name = [owner; repo]).

(** The calls made on the way to the loop. *)
Definition prelude_events (w : World) (owner repo tag : string) (out : path)
  : list event :=
  lookup_events w owner repo tag ++ [EGlob out "*.gz"].

(** ** Sample runs *)

Module Sample.

(** A process environment with the three variables. *)
Definition env_of (repo_owner_and_name : string) : gmap string string :=
  list_to_map
    [("SOURCE_GITHUB_REPO_OWNER_AND_NAME", repo_owner_and_name);
     ("MAIN_REPO_DIR", "/work/repo");
     ("OUT_PATH", "/work/out")].

(** Resolution of a path that is already absolute and has no links. *)
Definition resolve_abs (p : string) : path :=
  List.filter (fun c => negb (String.eqb c "")) (Str.split "/" p).

(** The ASCII codec: bytes below 128 are their characters, any other byte
    cannot be decoded. *)
Definition decode_ascii (bytes : string) : option string :=
  if forallb (fun c => Nat.ltb (nat_of_ascii c) 128) (list_ascii_of_string bytes)
  then Some bytes else None.

(** A checkout with its [VERSION] file next to an output directory. *)
Definition root_of (version : string) (out : list (string * node)) : node :=
  Dir [("work", Dir [("repo", Dir [("VERSION", File version);
                                   ("README.md", File "component-cli")]);
                     ("out", Dir out)])].

(** A hosting side with one release, tagged [v1.2.3], which accepts the
    uploads that [accepts] lets through. *)
Definition world_of (env : gmap string string)
    (accepts : list asset -> asset -> bool) : World :=
  {| environ := env;
     resolve := resolve_abs;
     decode := decode_ascii;
     github := fun cfg_name =>
       if String.eqb cfg_name "github_com" then Some "token" else None;
     repository := fun owner repo _ =>
       if String.eqb owner "gardener" && String.eqb repo "component-cli"
       then Some 7 else None;
     release_from_tag := fun _ tag =>
       if String.eqb tag "v1.2.3" then Some 42 else None;
     upload_accepts := accepts |}.

Definition env : gmap string string := env_of "gardener/component-cli".

Definition accept_all (_ : list asset) (_ : asset) : bool := true.

(** Refuses the asset called [n]. *)
Definition refuse (n : string) (_ : list asset) (a : asset) : bool :=
  negb (String.eqb (a_name a) n).

Definition three : list (string * node) :=
  [("a.tar.gz", File "AAAA"); ("b.gz", File "BB"); ("c.txt", File "C")].

Definition five : list (string * node) :=
  [("a.gz", File "A"); ("b.gz", File "B"); ("c.gz", File "C");
   ("d.gz", File "D"); ("e.gz", File "E")].

Definition none : list (string * node) :=
  [("c.txt", File "C"); ("gz", File "G");
   ("nested", Dir [("d.gz", File "D")])].

Definition start (root : node) : state := State root [] [] [].

Definition out : path := ["work"; "out"].

(** The run on a tree, from a fresh process. *)
Definition run (w : World) (root : node) : result unit * state :=
  update_release w (start root).

(** The output directory of the specification's example, every upload
    accepted. *)
Definition w3 : World := world_of env accept_all.
Definition s3 : state := start (root_of "v1.2.3" three).

(** Five artifacts, the third of which the hosting side refuses. *)
Definition w5 : World := world_of env (refuse "c.gz").
Definition s5 : state := start (root_of "v1.2.3" five).

(** The state of that run when the loop is entered, after two turns, and
    after the third. *)
Definition s5_loop : state :=
  add_events (prelude_events w5 "gardener" "component-cli" "v1.2.3" out) s5.
Definition s5_two : state :=
  snd (for_each [out ++ ["a.gz"]; out ++ ["b.gz"]] (attach w5 42) s5_loop).
Definition s5_three : state := snd (attach w5 42 (out ++ ["c.gz"]) s5_two).

(** A checkout whose version has no release on the hosting side. *)
Definition s9 : state := start (root_of "v9.9.9" three).

(** An output directory without artifacts: a text file, a file called
    [gz], and an archive one level down. *)
Definition s0 : state := start (root_of "v1.2.3" none).

Definition newline : string := String (ascii_of_nat 10) EmptyString.

(** A [VERSION] file written with a DOS line end. *)
Definition crlf : string := String Str.CR (String Str.LF EmptyString).
Definition s_crlf : state := start (root_of ("v1.2.3" +:+ crlf) three).

(** An owner/name string with an empty owner. *)
Definition w_no_owner : World := world_of (env_of "/component-cli") accept_all.

(** An owner/name string with two separators. *)
Definition w_two_slashes : World :=
  world_of (env_of "gardener/component-cli/x") accept_all.

(** A process environment in which [OUT_PATH] is not set. *)
Definition w_no_out : World :=
  world_of (delete "OUT_PATH" env) accept_all.

End Sample.

(** ** Further sample runs *)

Module Edge.

(** The calls of the loop. *)
Definition loop_call (e : event) : bool :=
  match e with
  | EPrint _ | EOpen _ _ | EUploadAsset _ _ _ _ | ERelease _ => true
  | _ => false
  end.

(** [f] is a regular file of the tree. *)
Definition is_file (root : node) (f : path) : Prop :=
  lookup_node root f = Some (File (file_data root f)).

(** A checkout without a [VERSION] file. *)
Definition s_no_version : state :=
  Sample.start
    (Dir [("work", Dir [("repo", Dir [("README.md", File "component-cli")]);
                        ("out", Dir Sample.three)])]).

(** [OUT_PATH] names a directory that does not exist. *)
Definition w_no_dir : World :=
  Sample.world_of (<["OUT_PATH" := "/work/dist"]> Sample.env) Sample.accept_all.

(** An output directory in which [b.gz] is a directory. *)
Definition with_dir : list (string * node) :=
  [("a.gz", File "A"); ("b.gz", Dir [("inner.gz", File "I")]);
   ("c.gz", File "C")].

Definition s_with_dir : state :=
  Sample.start (Sample.root_of "v1.2.3" with_dir).

(** A hosting side that refuses an asset whose name is already taken on
    the release. *)
Definition refuse_taken (stored : list asset) (a : asset) : bool :=
  negb (existsb (fun b => String.eqb (a_name b) (a_name a)) stored).

Definition w_taken : World := Sample.world_of Sample.env refuse_taken.

(** The five artifacts again, on a release that already holds an asset. *)
Definition notes : asset := Asset 42 "text/plain" "notes.txt" "N".

Definition s5_notes : state :=
  State (Sample.root_of "v1.2.3" Sample.five) [] [notes] [].

End Edge.

(** * Properties *)

(** ** Splitting and matching *)

Module StrFacts.
Import Str.

Lemma split_nonempty sep s : split sep s <> [].
Proof.
  destruct s as [|c s]; simpl; [discriminate|].
  destruct (Ascii.eqb c sep); [discriminate|].
  destruct (split sep s); discriminate.
Qed.

(** One more piece than separators. *)
Lemma split_length sep s : length (split sep s) = S (count sep s).
Proof.
  induction s as [|c s IH]; simpl; [reflexivity|].
  destruct (Ascii.eqb c sep); simpl.
  - now rewrite IH.
  - destruct (split sep s) eqn:E; simpl in *; [discriminate IH | exact IH].
Qed.

Lemma join_cons_char sep c w ws :
  join sep (String c w :: ws) = String c (join sep (w :: ws)).
Proof. destruct ws; reflexivity. Qed.

(** Joining the pieces with the separator gives the string back. *)
Lemma join_split sep s : join (String sep EmptyString) (split sep s) = s.
Proof.
  induction s as [|c s IH]; simpl; [reflexivity|].
  pose proof (split_nonempty sep s) as Hn.
  destruct (Ascii.eqb_spec c sep) as [->|Hne].
  - destruct (split sep s) as [|w ws]; [contradiction|].
    change (join (String sep "") ("" :: w :: ws))
      with (String sep (join (String sep "") (w :: ws))).
    now rewrite IH.
  - destruct (split sep s) as [|w ws]; [contradiction|].
    now rewrite join_cons_char, IH.
Qed.

(** No piece contains the separator. *)
Lemma split_pieces sep s : Forall (fun w => count sep w = 0) (split sep s).
Proof.
  induction s as [|c s IH]; simpl.
  - repeat constructor.
  - destruct (Ascii.eqb c sep) eqn:E.
    + constructor; [reflexivity | exact IH].
    + destruct (split sep s) as [|w ws]; simpl.
      * repeat constructor. simpl. now rewrite E.
      * inversion IH; subst. constructor; [|assumption].
        simpl. now rewrite E.
Qed.

(** Unpacking into two names works exactly for one separator. *)
Lemma split_two sep s :
  count sep s = 1 <-> exists a b, split sep s = [a; b].
Proof.
  pose proof (split_length sep s) as HL. split.
  - intros H. rewrite H in HL.
    destruct (split sep s) as [|a [|b [|c l]]]; simpl in HL; try lia.
    now exists a, b.
  - intros (a & b & E). rewrite E in HL. simpl in HL. lia.
Qed.

Lemma append_nil_l s : "" +:+ s = s.
Proof. reflexivity. Qed.

Lemma append_cons c a b : String c a +:+ b = String c (a +:+ b).
Proof. reflexivity. Qed.

Lemma has_suffix_ends_with suf s :
  has_suffix suf s = true <-> ends_with suf s.
Proof.
  unfold ends_with. induction s as [|c s IH]; simpl.
  - rewrite orb_false_r, String.eqb_eq. split.
    + intros ->. now exists "".
    + intros (pre & E). destruct pre.
      * now rewrite append_nil_l in E.
      * rewrite append_cons in E. discriminate.
  - rewrite orb_true_iff, String.eqb_eq, IH. split.
    + intros [->|(pre & ->)]; [now exists "" | now exists (String c pre)].
    + intros (pre & E). destruct pre as [|d pre].
      * left. now rewrite append_nil_l in E.
      * right. exists pre. rewrite append_cons in E. congruence.
Qed.

(** A pattern without wildcards matches itself only. *)
Lemma fnmatch_literal pat n :
  literal pat = true -> fnmatch pat n = String.eqb pat n.
Proof.
  revert n. induction pat as [|c pat IH]; intros n H; simpl in *.
  - now destruct n.
  - apply andb_prop in H as [H H3]. apply andb_prop in H as [H1 H2].
    apply negb_true_iff in H1, H2. rewrite H1, H2.
    destruct n as [|d n]; [reflexivity|]. now rewrite IH.
Qed.

(** [*] followed by a literal matches the names that end with it. *)
Lemma fnmatch_star_literal lit n :
  literal lit = true -> fnmatch (String "*" lit) n = has_suffix lit n.
Proof.
  intros H. simpl.
  induction n as [|d n IH]; simpl.
  - now rewrite (fnmatch_literal lit "" H).
  - rewrite (fnmatch_literal lit _ H). now rewrite IH.
Qed.

Lemma fnmatch_gz n : fnmatch "*.gz" n = true <-> ends_with ".gz" n.
Proof.
  rewrite <- has_suffix_ends_with.
  now rewrite (fnmatch_star_literal ".gz" n eq_refl).
Qed.

Lemma append_inj_l a b c : a +:+ b = a +:+ c -> b = c.
Proof.
  induction a as [|x a IH]; intros H; [exact H|].
  rewrite !append_cons in H. injection H. exact IH.
Qed.

Lemma append_length a b :
  String.length (a +:+ b) = String.length a + String.length b.
Proof.
  induction a as [|x a IH]; [reflexivity|].
  rewrite append_cons. simpl. now rewrite IH.
Qed.

Lemma append_inj_r a b c : a +:+ c = b +:+ c -> a = b.
Proof.
  revert b. induction a as [|x a IH]; intros [|y b] H.
  - reflexivity.
  - apply (f_equal String.length) in H.
    rewrite !append_length in H. simpl in H. lia.
  - apply (f_equal String.length) in H.
    rewrite !append_length in H. simpl in H. lia.
  - rewrite !append_cons in H. injection H as -> H. f_equal. now apply IH.
Qed.

Lemma append_assoc a b c : (a +:+ b) +:+ c = a +:+ b +:+ c.
Proof.
  induction a as [|x a IH]; [reflexivity|].
  rewrite !append_cons. now rewrite IH.
Qed.

(** The last piece of a joined list stands at its end. *)
Lemma join_snoc sep dir n :
  join sep (dir ++ [n])
  = match dir with [] => "" | _ :: _ => join sep dir +:+ sep end +:+ n.
Proof.
  induction dir as [|d dir IH]; [reflexivity|].
  change (join sep ((d :: dir) ++ [n]))
    with (join sep (d :: (dir ++ [n]))).
  destruct dir as [|d' dir].
  - cbn [app join]. now rewrite !append_assoc.
  - change (join sep (d :: (d' :: dir) ++ [n]))
      with (d +:+ sep +:+ join sep ((d' :: dir) ++ [n])).
    rewrite IH.
    change (join sep (d :: d' :: dir))
      with (d +:+ sep +:+ join sep (d' :: dir)).
    now rewrite !append_assoc.
Qed.

End StrFacts.

Ltac conjs := repeat match goal with |- _ /\ _ => split end.

(** ** The model at work *)

Example fnmatch_gz_names :
  map (Str.fnmatch "*.gz") ["a.tar.gz"; "b.gz"; ".gz"; "c.txt"; "gz"; "b.gz.sig"; "B.GZ"]
  = [true; true; true; false; false; false; false].
Proof. reflexivity. Qed.

Example split_keeps_empty_pieces :
  Str.split "/" "gardener/component-cli" = ["gardener"; "component-cli"] /\
  Str.split "/" "/component-cli" = [""; "component-cli"] /\
  Str.split "/" "gardener" = ["gardener"] /\
  Str.split "/" "a/b/c" = ["a"; "b"; "c"].
Proof. now conjs. Qed.

Example universal_newlines_lines :
  Str.universal_newlines ("a" +:+ Sample.crlf +:+ "b"
                          +:+ String Str.CR "c" +:+ Sample.newline)
  = "a" +:+ Sample.newline +:+ "b" +:+ Sample.newline +:+ "c"
    +:+ Sample.newline.
Proof. reflexivity. Qed.

(** Opening for writing does change the tree; opening for reading does
    not. *)
Example open_effect_modes :
  open_effect "wb" (Dir [("a.gz", File "AAAA")]) ["a.gz"]
  = Some (Dir [("a.gz", File "")]) /\
  open_effect "rb" (Dir [("a.gz", File "AAAA")]) ["a.gz"]
  = Some (Dir [("a.gz", File "AAAA")]) /\
  open_effect "rb" (Dir [("a.gz", Dir [])]) ["a.gz"] = None.
Proof. now conjs. Qed.

(** ** Running the script *)

Lemma open_effect_rb root p :
  open_effect "rb" root p
  = match lookup_node root p with Some (File _) => Some root | _ => None end.
Proof. reflexivity. Qed.

Lemma set_fs_same s : set_fs (fs s) s = s.
Proof. now destruct s. Qed.

Lemma remove_first_head h l : remove_first h (h :: l) = l.
Proof. cbn. now rewrite decide_True. Qed.

(** One turn of the loop: the file cannot be opened, or the upload is
    accepted, or it is refused. *)
Lemma attach_cases w rel f s :
  (lookup_node (fs s) f <> Some (File (file_data (fs s) f)) /\
   attach w rel f s
   = (Raise (OSError f), add_events [EPrint (progress_line f); EOpen f "rb"] s))
  \/
  (lookup_node (fs s) f = Some (File (file_data (fs s) f)) /\
   upload_accepts w (assets s) (asset_of (fs s) rel f) = true /\
   attach w rel f s = (Ok tt, after_uploads rel [f] s))
  \/
  (lookup_node (fs s) f = Some (File (file_data (fs s) f)) /\
   upload_accepts w (assets s) (asset_of (fs s) rel f) = false /\
   attach w rel f s
   = (Raise (UploadRejected (name f)),
      add_handle (asset_handle f) (add_events (refused_events rel f) s))).
Proof.
  destruct s as [root hs ast tr].
  unfold attach, bind, print, log, path_open, upload_asset, release, bind, log,
    after_uploads, add_events, add_handle, add_event, add_asset, set_fs,
    remove_handle, attach_events, refused_events, upload_call, asset_handle,
    asset_of, file_data.
  cbn [fs handles assets trace h_path]. rewrite open_effect_rb.
  destruct (lookup_node root f) as [[d|es]|] eqn:E;
    cbn [fs handles assets trace h_path].
  - right. rewrite E.
    destruct (upload_accepts w ast _) eqn:A; [left | right];
      (split; [reflexivity|]; split; [now rewrite ?E|]);
      cbn [fs handles assets trace h_path map flat_map app];
      rewrite ?remove_first_head, ?E, <- ?app_assoc; reflexivity.
  - left. split; [discriminate|]. now rewrite <- app_assoc.
  - left. split; [discriminate|]. now rewrite <- app_assoc.
Qed.

(** A turn that raises stores nothing and makes a first part of the calls of
    a complete turn. *)
Lemma attach_raises w rel f s e s' :
  attach w rel f s = (Raise e, s') ->
  fs s' = fs s /\ assets s' = assets s /\
  ((e = OSError f /\ s' = add_events [EPrint (progress_line f); EOpen f "rb"] s)
   \/ (e = UploadRejected (name f) /\
       upload_accepts w (assets s) (asset_of (fs s) rel f) = false /\
       s' = add_handle (asset_handle f) (add_events (refused_events rel f) s))).
Proof.
  intros H.
  destruct (attach_cases w rel f s) as [(_ & E)|[(_ & _ & E)|(_ & A & E)]];
    rewrite E in H; inversion H; subst; clear H.
  - repeat split; try reflexivity. now left.
  - repeat split; try reflexivity. right. now repeat split.
Qed.

Lemma after_uploads_nil rel s : after_uploads rel [] s = s.
Proof.
  destruct s. unfold after_uploads. simpl. now rewrite !app_nil_r.
Qed.

Lemma after_uploads_cons rel f l s :
  after_uploads rel l (after_uploads rel [f] s) = after_uploads rel (f :: l) s.
Proof.
  destruct s as [root hs ast tr]. unfold after_uploads.
  cbn [fs handles assets trace map flat_map rev app].
  f_equal; rewrite <- ?app_assoc; try reflexivity.
Qed.

Lemma after_uploads_app rel l1 l2 s :
  after_uploads rel l2 (after_uploads rel l1 s) = after_uploads rel (l1 ++ l2) s.
Proof.
  revert s. induction l1 as [|f l1 IH]; intros s.
  - now rewrite after_uploads_nil.
  - rewrite <- after_uploads_cons, IH. simpl. now rewrite after_uploads_cons.
Qed.

Lemma for_each_app {A : Type} (body : A -> M unit) l1 l2 s :
  for_each (l1 ++ l2) body s
  = match for_each l1 body s with
    | (Ok _, s1) => for_each l2 body s1
    | (Raise e, s1) => (Raise e, s1)
    end.
Proof.
  revert s. induction l1 as [|x l1 IH]; intros s; [reflexivity|].
  simpl. unfold bind. destruct (body x s) as [[[]|e] s1]; [apply IH | reflexivity].
Qed.

(** The loop: either every file is attached, or the files before the first
    failing one are attached and that failure ends the loop. *)
Lemma upload_loop_outcome w rel files s :
  for_each files (attach w rel) s = (Ok tt, after_uploads rel files s)
  \/ exists done f rest e s',
       files = done ++ f :: rest /\
       for_each done (attach w rel) s = (Ok tt, after_uploads rel done s) /\
       attach w rel f (after_uploads rel done s) = (Raise e, s') /\
       for_each files (attach w rel) s = (Raise e, s').
Proof.
  revert s. induction files as [|f l IH]; intros s.
  - left. simpl. unfold ret. now rewrite after_uploads_nil.
  - destruct (attach w rel f s) as [[[]|e] s1] eqn:E.
    + assert (s1 = after_uploads rel [f] s) as ->.
      { destruct (attach_cases w rel f s) as [(_ & E')|[(_ & _ & E')|(_ & _ & E')]];
          rewrite E' in E; congruence. }
      destruct (IH (after_uploads rel [f] s))
        as [HOk | (done & g & rest & e & s' & -> & Hd & Hg & Hall)].
      * left. simpl. unfold bind. rewrite E, HOk. now rewrite after_uploads_cons.
      * right. exists (f :: done), g, rest, e, s'.
        rewrite after_uploads_cons in Hd, Hg.
        repeat split; try assumption.
        -- simpl. unfold bind. now rewrite E.
        -- simpl. unfold bind. now rewrite E.
    + right. exists [], f, l, e, s1. rewrite after_uploads_nil.
      repeat split; try assumption. simpl. unfold bind. now rewrite E.
Qed.

Lemma text_at_Some w root p tag :
  text_at w root p = Some tag ->
  exists bytes text,
    lookup_node root p = Some (File bytes) /\
    decode w bytes = Some text /\
    tag = Str.universal_newlines text.
Proof.
  unfold text_at. intros H.
  destruct (lookup_node root p) as [[bytes|es]|]; try discriminate H.
  destruct (decode w bytes) as [text|] eqn:D; try discriminate H.
  injection H as <-. exists bytes, text. repeat split. exact D.
Qed.

Lemma add_events_nil s : add_events [] s = s.
Proof. destruct s. unfold add_events. simpl. now rewrite app_nil_r. Qed.

(** When everything before the loop goes well, the script is the loop over
    the enumerated files. *)
Lemma update_release_reaches w s owner repo tag rel out :
  reaches_loop w s owner repo tag rel out ->
  update_release w s
  = for_each (output_files (fs s) out) (attach w rel)
      (add_events (prelude_events w owner repo tag out) s).
Proof.
  intros (oan & rd & od & cfg & gr & H1 & H2 & H3 & H4 & H5 & H6 & H7 & H8 & ->).
  apply text_at_Some in H5 as (bytes & text & H5 & H5d & ->).
  unfold update_release, prelude_events, lookup_events, version_file, bind,
    check_env.
  rewrite H1, H2, H3. unfold ret at 1 2 3. rewrite H4. unfold unpack2, ret at 1.
  unfold path_resolve, ret at 1, VERSION_FILE_NAME, read_text, bind, log.
  cbn [fs add_event]. rewrite H5, H5d.
  unfold cfg_factory_github, bind, log. rewrite H6. unfold ret at 1.
  unfold GitHubRepositoryHelper, bind, log. rewrite H7. unfold ret at 1.
  unfold repository_release_from_tag, bind, log. rewrite H8. unfold ret at 1.
  unfold ret at 1, glob, bind, log. cbn [fs add_event].
  unfold output_files. f_equal.
  destruct s; unfold add_events, add_event; simpl.
  now rewrite <- !app_assoc.
Qed.

(** Every run either ends before the loop, having made only calls of the
    lookup phase, or reaches the loop with a resolved release. *)
Lemma update_release_cases w s :
  (exists e t,
      update_release w s = (Raise e, add_events t s) /\
      forallb lookup_phase t = true /\
      (forall tag, In (EReleaseFromTag tag) t ->
                   version_text w (fs s) = Some tag) /\
      ends_before_loop w e t)
  \/ (exists owner repo tag rel out,
         reaches_loop w s owner repo tag rel out /\
         update_release w s
         = for_each (output_files (fs s) out) (attach w rel)
             (add_events (prelude_events w owner repo tag out) s)).
Proof.
  destruct (environ w !! "SOURCE_GITHUB_REPO_OWNER_AND_NAME") as [oan|] eqn:H1;
  [destruct (environ w !! "MAIN_REPO_DIR") as [rd|] eqn:H2;
   [destruct (environ w !! "OUT_PATH") as [od|] eqn:H3|]|].
  2-4: left; eexists _, []; rewrite add_events_nil;
       unfold update_release, bind, check_env; rewrite ?H1, ?H2, ?H3;
       unfold ret, raise;
       (split; [reflexivity | split; [reflexivity | split;
         [intros ? [] | left; split; [reflexivity|]]]]);
       left; eexists; (split; [reflexivity|]);
       (split; [first [exact H1 | exact H2 | exact H3] | simpl; tauto]).
  destruct (Str.split "/" oan) as [|owner [|repo [|x l]]] eqn:H4.
  1,2,4: left; eexists _, []; rewrite add_events_nil;
       unfold update_release, bind, check_env; rewrite H1, H2, H3;
       unfold ret at 1 2 3; rewrite H4; unfold unpack2, raise;
       (split; [reflexivity | split; [reflexivity | split;
         [intros ? [] | left; split; [reflexivity|]]]]);
       right; exists oan; rewrite H4;
       (split; [exact H1 | split; [reflexivity | simpl; lia]]).
  assert (update_release w s
          = bind (read_text w (joinpath (resolve w rd) "VERSION"))
                 (fun c =>
                    cfg <- cfg_factory_github w "github_com" ;;
                    r <- GitHubRepositoryHelper w owner repo cfg ;;
                    rel <- repository_release_from_tag w r c ;;
                    fl <- glob (resolve w od) "*.gz" ;;
                    for_each fl (attach w rel)) s) as HU.
  { unfold update_release, bind at 1 2 3 4 5, check_env.
    rewrite H1, H2, H3. unfold ret at 1 2 3. rewrite H4.
    reflexivity. }
  assert (version_text w (fs s)
          = text_at w (fs s) (joinpath (resolve w rd) "VERSION")) as HV.
  { unfold version_text. now rewrite H2. }
  assert (version_file w = joinpath (resolve w rd) "VERSION") as HF.
  { unfold version_file. now rewrite H2. }
  assert (forall e t',
             kind_of e <> ConfigurationError ->
             ends_before_loop w e
               (EReadText (joinpath (resolve w rd) "VERSION") :: t')) as HL.
  { intros e t' He. right. exists t', oan, owner, repo. rewrite HF.
    now conjs. }
  destruct (lookup_node (fs s) (joinpath (resolve w rd) "VERSION"))
    as [[bytes|es]|] eqn:H5.
  2,3: left; eexists _, [EReadText _]; rewrite HU;
       unfold bind, read_text, bind, log; cbn [fs add_event]; rewrite H5;
       (split; [reflexivity | split; [reflexivity | split;
         [intros ? [?|[]]; discriminate | now apply HL]]]).
  destruct (decode w bytes) as [text|] eqn:H5d.
  2: left; eexists _, [EReadText _]; rewrite HU;
     unfold bind, read_text, bind, log; cbn [fs add_event]; rewrite H5, H5d;
     (split; [reflexivity | split; [reflexivity | split;
       [intros ? [?|[]]; discriminate | now apply HL]]]).
  assert (text_at w (fs s) (joinpath (resolve w rd) "VERSION")
          = Some (Str.universal_newlines text)) as HT.
  { unfold text_at. now rewrite H5, H5d. }
  destruct (github w "github_com") as [cfg|] eqn:H6.
  2: { left. eexists _, [EReadText _; EGithubCfg _]. rewrite HU.
       unfold bind, read_text, bind, log. cbn [fs add_event]. rewrite H5, H5d.
       unfold cfg_factory_github, bind, log. rewrite H6. unfold raise.
       split; [|split; [reflexivity|split]].
       - destruct s; unfold add_events, add_event; simpl.
         now rewrite <- !app_assoc.
       - intros ? [?|[?|[]]]; discriminate.
       - now apply HL. }
  destruct (repository w owner repo cfg) as [gr|] eqn:H7.
  2: { left. eexists _, [EReadText _; EGithubCfg _; ERepository _ _].
       rewrite HU.
       unfold bind, read_text, bind, log. cbn [fs add_event]. rewrite H5, H5d.
       unfold cfg_factory_github, bind, log. rewrite H6. unfold ret at 1.
       unfold GitHubRepositoryHelper, bind, log. rewrite H7. unfold raise.
       split; [|split; [reflexivity|split]].
       - destruct s; unfold add_events, add_event; simpl.
         now rewrite <- !app_assoc.
       - intros ? [?|[?|[?|[]]]]; discriminate.
       - now apply HL. }
  destruct (release_from_tag w gr (Str.universal_newlines text)) as [rel|] eqn:H8.
  2: { left.
       eexists _, [EReadText _; EGithubCfg _; ERepository _ _;
                   EReleaseFromTag (Str.universal_newlines text)].
       rewrite HU.
       unfold bind, read_text, bind, log. cbn [fs add_event]. rewrite H5, H5d.
       unfold cfg_factory_github, bind, log. rewrite H6. unfold ret at 1.
       unfold GitHubRepositoryHelper, bind, log. rewrite H7. unfold ret at 1.
       unfold repository_release_from_tag, bind, log. rewrite H8.
       unfold raise.
       split; [|split; [reflexivity|split]].
       - destruct s; unfold add_events, add_event; simpl.
         now rewrite <- !app_assoc.
       - intros ? [?|[?|[?|[?|[]]]]]; try discriminate.
         rewrite HV, HT. congruence.
       - now apply HL. }
  right. exists owner, repo, (Str.universal_newlines text), rel, (resolve w od).
  assert (reaches_loop w s owner repo (Str.universal_newlines text) rel
            (resolve w od)) as HR.
  { exists oan, rd, od, cfg, gr. repeat split; assumption. }
  split; [exact HR | now apply update_release_reaches].
Qed.

Lemma update_release_shape w s r s' :
  update_release w s = (r, s') ->
  (exists e t,
      r = Raise e /\ s' = add_events t s /\
      forallb lookup_phase t = true /\
      (forall tag, In (EReleaseFromTag tag) t ->
                   version_text w (fs s) = Some tag) /\
      ends_before_loop w e t)
  \/ (exists owner repo tag rel out,
         reaches_loop w s owner repo tag rel out /\
         for_each (output_files (fs s) out) (attach w rel)
           (add_events (prelude_events w owner repo tag out) s) = (r, s')).
Proof.
  intros H.
  destruct (update_release_cases w s)
    as [(e & t & E & Ht & Hv & He) | (owner & repo & tag & rel & out & HR & E)];
    rewrite E in H.
  - left. exists e, t. inversion H; subst. now conjs.
  - right. now exists owner, repo, tag, rel, out.
Qed.

(** What the loop leaves behind, in every case. *)
Lemma upload_loop_shape w rel files s r s' :
  for_each files (attach w rel) s = (r, s') ->
  exists done tail,
    fs s' = fs s /\
    assets s' = assets s ++ map (asset_of (fs s) rel) done /\
    trace s' = trace s ++ flat_map (attach_events rel) done ++ tail /\
    handles s' = map asset_handle (attempted tail) ++ handles s /\
    ((r = Ok tt /\ done = files /\ tail = []) \/
     (exists f rest e,
         r = Raise e /\ files = done ++ f :: rest /\
         ((e = OSError f /\ tail = [EPrint (progress_line f); EOpen f "rb"]) \/
          (e = UploadRejected (name f) /\ tail = refused_events rel f)))).
Proof.
  intros H.
  destruct (upload_loop_outcome w rel files s)
    as [E | (done & f & rest & e & s1 & -> & Hd & Hf & E)];
    rewrite E in H; inversion H; subst; clear H.
  - exists files, []. cbn [fs assets trace handles after_uploads attempted omap].
    rewrite !app_nil_r. conjs; try reflexivity. now left.
  - exists done.
    apply attach_raises in Hf as (Hfs & Has & [(-> & ->) | (-> & _ & ->)]).
    + exists [EPrint (progress_line f); EOpen f "rb"].
      cbn [fs assets trace handles after_uploads add_events].
      conjs; try reflexivity.
      * now rewrite <- app_assoc.
      * right. exists f, rest, (OSError f). conjs; try reflexivity. now left.
    + exists (refused_events rel f).
      cbn [fs assets trace handles after_uploads add_events add_handle].
      conjs; try reflexivity.
      * now rewrite <- app_assoc.
      * right. exists f, rest, (UploadRejected (name f)).
        conjs; try reflexivity. now right.
Qed.

(** When the lookup is reached and finds no release, the script ends
    there. *)
Lemma update_release_not_found w s owner repo tag github_repo :
  reaches_lookup w s owner repo tag github_repo ->
  release_from_tag w github_repo tag = None ->
  update_release w s
  = (Raise (ReleaseNotFound tag), add_events (lookup_events w owner repo tag) s).
Proof.
  intros (oan & rd & od & cfg & H1 & H2 & H3 & H4 & H5 & H6 & H7) H8.
  apply text_at_Some in H5 as (bytes & text & H5 & H5d & ->).
  unfold update_release, lookup_events, version_file, bind, check_env.
  rewrite H1, H2, H3. unfold ret at 1 2 3. rewrite H4. unfold unpack2, ret at 1.
  unfold path_resolve, ret at 1, VERSION_FILE_NAME, read_text, bind, log.
  cbn [fs add_event]. rewrite H5, H5d.
  unfold cfg_factory_github, bind, log. rewrite H6. unfold ret at 1.
  unfold GitHubRepositoryHelper, bind, log. rewrite H7. unfold ret at 1.
  unfold repository_release_from_tag, bind, log. rewrite H8. unfold raise.
  f_equal. destruct s; unfold add_events, add_event; simpl.
  now rewrite <- !app_assoc.
Qed.

(** A run that reaches the lookup either finds the release and goes on to
    the loop, or ends with the lookup. *)
Lemma reaches_lookup_cases w s owner repo tag github_repo :
  reaches_lookup w s owner repo tag github_repo ->
  release_from_tag w github_repo tag = None
  \/ exists rel out, reaches_loop w s owner repo tag rel out.
Proof.
  intros (oan & rd & od & cfg & H1 & H2 & H3 & H4 & H5 & H6 & H7).
  destruct (release_from_tag w github_repo tag) as [rel|] eqn:H8;
    [right | now left].
  exists rel, (resolve w od), oan, rd, od, cfg, github_repo.
  now conjs.
Qed.

Lemma reaches_lookup_version w s owner repo tag github_repo :
  reaches_lookup w s owner repo tag github_repo ->
  version_text w (fs s) = Some tag.
Proof.
  intros (oan & rd & od & cfg & H1 & H2 & H3 & H4 & H5 & H6 & H7).
  unfold version_text. now rewrite H2, H5.
Qed.

Lemma reaches_loop_version w s owner repo tag rel out :
  reaches_loop w s owner repo tag rel out ->
  version_text w (fs s) = Some tag.
Proof.
  intros (oan & rd & od & cfg & gr & H1 & H2 & H3 & H4 & H5 & _).
  unfold version_text. now rewrite H2, H5.
Qed.

(** ** Reading the trace *)

Lemma attempted_app t1 t2 : attempted (t1 ++ t2) = attempted t1 ++ attempted t2.
Proof. apply omap_app. Qed.

Lemma opened_app t1 t2 : opened (t1 ++ t2) = opened t1 ++ opened t2.
Proof. apply omap_app. Qed.

Lemma printed_app t1 t2 : printed (t1 ++ t2) = printed t1 ++ printed t2.
Proof. apply omap_app. Qed.

Lemma globbed_app t1 t2 : globbed (t1 ++ t2) = globbed t1 ++ globbed t2.
Proof. apply omap_app. Qed.

Lemma looked_up_app t1 t2 : looked_up (t1 ++ t2) = looked_up t1 ++ looked_up t2.
Proof. apply omap_app. Qed.

(** The calls of complete turns, read back. *)
Lemma turns_read rel l :
  attempted (flat_map (attach_events rel) l) = l /\
  opened (flat_map (attach_events rel) l) = l /\
  printed (flat_map (attach_events rel) l) = map progress_line l /\
  globbed (flat_map (attach_events rel) l) = [] /\
  looked_up (flat_map (attach_events rel) l) = [].
Proof.
  induction l as [|f l (IH1 & IH2 & IH3 & IH4 & IH5)]; [now repeat split|].
  cbn [flat_map attach_events app].
  repeat split; cbn; now f_equal.
Qed.

(** No call of a turn opens a file for writing. *)
Lemma turns_no_write rel l :
  forallb (fun e => negb (writes_fs e)) (flat_map (attach_events rel) l) = true.
Proof. induction l as [|f l IH]; [reflexivity | exact IH]. Qed.

(** The calls of the lookup phase touch no artifact. *)
Lemma lookup_phase_read t :
  forallb lookup_phase t = true ->
  attempted t = [] /\ opened t = [] /\ printed t = [] /\ globbed t = [] /\
  forallb (fun e => negb (writes_fs e)) t = true.
Proof.
  induction t as [|e t IH]; [now repeat split|].
  cbn [forallb]. intros H. apply andb_prop in H as [He Ht].
  destruct (IH Ht) as (IH1 & IH2 & IH3 & IH4 & IH5).
  destruct e; try discriminate He; cbn; now repeat split.
Qed.

Lemma prelude_read w owner repo tag out :
  attempted (prelude_events w owner repo tag out) = [] /\
  opened (prelude_events w owner repo tag out) = [] /\
  printed (prelude_events w owner repo tag out) = [] /\
  globbed (prelude_events w owner repo tag out) = [(out, "*.gz")] /\
  looked_up (prelude_events w owner repo tag out) = [tag] /\
  forallb (fun e => negb (writes_fs e)) (prelude_events w owner repo tag out)
  = true.
Proof. now conjs. Qed.

(** The pattern of the script selects the names that end in [.gz]. *)
Lemma output_files_gz_children root dir :
  output_files root dir = gz_children root dir.
Proof.
  unfold output_files, gz_children. f_equal.
  induction (listdir root dir) as [|n l IH]; [reflexivity|].
  cbn [List.filter].
  rewrite (StrFacts.fnmatch_star_literal ".gz" n eq_refl), IH. reflexivity.
Qed.

(** Membership in the artifact set, spelled out. *)
Lemma gz_children_spec root dir p :
  In p (gz_children root dir) <->
  exists n, p = joinpath dir n /\ In n (listdir root dir) /\
            Str.ends_with ".gz" n.
Proof.
  unfold gz_children. rewrite in_map_iff. split.
  - intros (n & <- & Hn). apply filter_In in Hn as [Hn Hs].
    exists n. repeat split; [assumption|].
    now apply StrFacts.has_suffix_ends_with.
  - intros (n & -> & Hn & Hs). exists n. split; [reflexivity|].
    apply filter_In. split; [assumption|].
    now apply StrFacts.has_suffix_ends_with.
Qed.

Lemma looked_up_in tag t : In tag (looked_up t) -> In (EReleaseFromTag tag) t.
Proof.
  unfold looked_up. intros H.
  apply list_elem_of_In, list_elem_of_omap in H as (e & He & Hf).
  apply list_elem_of_In in He. destruct e; try discriminate Hf.
  now injection Hf as ->.
Qed.

(** The calls of the loop, complete turns and the one that raised, hold no
    release lookup. *)
Lemma loop_tail_read rel f tail :
  tail = [] \/ tail = [EPrint (progress_line f); EOpen f "rb"]
  \/ tail = refused_events rel f ->
  looked_up tail = [] /\ globbed tail = [] /\
  forallb (fun e => negb (writes_fs e)) tail = true.
Proof. intros [ -> | [ -> | -> ] ]; now conjs. Qed.

(** An upload call among the calls of the loop: the turns of the files
    before it are complete, its own print and open come right before it, and
    what comes right after it is the release of its file object, unless the
    call raised and the run ended with it. *)
Lemma upload_in_turns rel done f tail t1 e t2 :
  tail = [] \/ tail = [EPrint (progress_line f); EOpen f "rb"]
  \/ tail = refused_events rel f ->
  flat_map (attach_events rel) done ++ tail = t1 ++ e :: t2 ->
  is_upload e = true ->
  exists before g,
    e = upload_call rel g /\
    t1 = flat_map (attach_events rel) before
         ++ [EPrint (progress_line g); EOpen g "rb"] /\
    before ++ [g] `prefix_of` done ++ attempted tail /\
    ((t2 = [] /\ tail = refused_events rel g) \/
     exists t3, t2 = ERelease (asset_handle g) :: t3).
Proof.
  intros Htail. revert t1.
  induction done as [|g done IH]; intros t1 H He.
  - cbn [flat_map app] in H.
    destruct Htail as [ -> | [ -> | -> ] ].
    + destruct t1; discriminate H.
    + destruct t1 as [|a [|b [|c t1]]]; cbn in H; injection H; intros; subst;
        try discriminate He; congruence.
    + destruct t1 as [|a [|b [|c t1]]]; cbn in H; injection H; intros; subst;
        try discriminate He.
      * exists [], f. conjs; try reflexivity. now left.
      * exfalso. eapply app_cons_not_nil. eassumption.
  - cbn [flat_map attach_events app] in H.
    destruct t1 as [|a [|b [|c [|d t1]]]]; cbn in H; injection H; intros; subst;
      try discriminate He.
    + exists [], g. conjs; [reflexivity | reflexivity | |].
      * cbn. apply prefix_cons, prefix_nil.
      * right. now eexists.
    + match goal with
      | Hrest : _ = t1 ++ e :: t2 |- _ =>
          destruct (IH t1 Hrest He) as (before & g' & -> & -> & Hp & Ht2)
      end.
      exists (g :: before), g'. conjs; [reflexivity | reflexivity | | exact Ht2].
      cbn. now apply prefix_cons.
Qed.

Lemma turns_alternate rel done tail :
  alternates false (flat_map (attach_events rel) done ++ tail)
  = alternates false tail.
Proof. induction done as [|g done IH]; [reflexivity | exact IH]. Qed.

Lemma upload_after_prelude w owner repo tag out rest t1 e t2 :
  prelude_events w owner repo tag out ++ rest = t1 ++ e :: t2 ->
  is_upload e = true ->
  exists t1',
    t1 = prelude_events w owner repo tag out ++ t1' /\ rest = t1' ++ e :: t2.
Proof.
  unfold prelude_events, lookup_events. cbn [app]. intros H He.
  destruct t1 as [|a1 [|a2 [|a3 [|a4 [|a5 t1]]]]]; cbn in H;
    injection H; intros; subst; try discriminate He.
  now exists t1.
Qed.

Lemma lookup_phase_no_upload t t1 e t2 :
  forallb lookup_phase t = true -> t = t1 ++ e :: t2 -> is_upload e = false.
Proof.
  intros H ->. rewrite forallb_app in H. apply andb_prop in H as [_ H].
  cbn in H. apply andb_prop in H as [H _]. now destruct e.
Qed.

(** Where an upload call stands in a run: the loop was reached with a
    resolved release, the turns of the files before it are complete, the
    print and the open for its file come right before it and the release of
    its file object right after it, unless the call raised.  Opens and
    releases take turns, and at the end no file object is left open but
    that of an upload that raised. *)
Lemma upload_call_context w s r s' :
  update_release w s = (r, s') ->
  exists t,
    trace s' = trace s ++ t /\
    fs s' = fs s /\
    (handles s' = handles s \/
     exists g, r = Raise (UploadRejected (name g)) /\
               handles s' = asset_handle g :: handles s) /\
    forallb (fun e => negb (writes_fs e)) t = true /\
    alternates false t = true /\
    forall t1 e t2,
      t = t1 ++ e :: t2 -> is_upload e = true ->
      exists owner repo tag rel out before g,
        reaches_loop w s owner repo tag rel out /\
        e = upload_call rel g /\
        t1 = prelude_events w owner repo tag out
             ++ flat_map (attach_events rel) before
             ++ [EPrint (progress_line g); EOpen g "rb"] /\
        before ++ [g] `prefix_of` output_files (fs s) out /\
        ((t2 = [] /\ r = Raise (UploadRejected (name g))) \/
         exists t3, t2 = ERelease (asset_handle g) :: t3).
Proof.
  intros H.
  apply update_release_shape in H
    as [(e & t & -> & -> & Ht & _)
       | (owner & repo & tag & rel & out & HR & H)].
  - exists t. pose proof (lookup_phase_read t Ht) as (A & O & _ & _ & W).
    conjs; try done.
    + now left.
    + clear -Ht. induction t as [|e t IH]; [reflexivity|].
      cbn in Ht. apply andb_prop in Ht as [He Ht].
      destruct e; try discriminate He; cbn; now apply IH.
    + intros t1 e' t2 E He.
      now rewrite (lookup_phase_no_upload t t1 e' t2 Ht E) in He.
  - apply upload_loop_shape in H
      as (done & tail & Hfs & _ & Htr & Hh & Hcase).
    cbn [fs trace handles add_events] in Hfs, Htr, Hh.
    exists (prelude_events w owner repo tag out
            ++ flat_map (attach_events rel) done ++ tail).
    assert (exists f, (tail = [] \/ tail = [EPrint (progress_line f); EOpen f "rb"]
                       \/ tail = refused_events rel f)
                      /\ done ++ attempted tail
                           `prefix_of` output_files (fs s) out
                      /\ (tail = refused_events rel f ->
                          r = Raise (UploadRejected (name f))))
      as (f & Htail & Hpre & Hrej).
    { destruct Hcase as [(_ & -> & ->)
                        | (f & rest & e & -> & -> & [(-> & ->)|(-> & ->)])].
      - exists []. conjs; [now left | | discriminate].
        cbn. now rewrite app_nil_r.
      - exists f. conjs; [right; now left | | discriminate].
        cbn. rewrite app_nil_r. now apply prefix_app_r.
      - exists f. conjs; [right; now right | | reflexivity].
        cbn. exists rest. now rewrite <- app_assoc. }
    conjs.
    + now rewrite Htr, <- app_assoc.
    + exact Hfs.
    + destruct Htail as [ -> | [ -> | -> ] ]; [now left | now left |].
      right. exists f. split; [now apply Hrej | exact Hh].
    + rewrite !forallb_app, turns_no_write.
      destruct (loop_tail_read rel f tail Htail) as (_ & _ & ->).
      reflexivity.
    + unfold prelude_events, lookup_events. cbn [app alternates].
      rewrite turns_alternate.
      destruct Htail as [ -> | [ -> | -> ] ]; reflexivity.
    + intros t1 e t2 E He.
      destruct (upload_after_prelude _ _ _ _ _ _ _ _ _ E He) as (t1' & -> & E').
      destruct (upload_in_turns _ _ _ _ _ _ _ Htail E' He)
        as (before & g & -> & -> & Hp & Ht2).
      exists owner, repo, tag, rel, out, before, g. conjs; try done.
      * destruct Hp as (k1 & Hk1). destruct Hpre as (k2 & Hk2).
        exists (k1 ++ k2). rewrite Hk2, Hk1. now rewrite <- !app_assoc.
      * destruct Ht2 as [(-> & Hrf) | Ht3]; [left | now right].
        split; [reflexivity|].
        assert (g = f) as ->.
        { destruct Htail as [ Hx | [ Hx | Hx ] ]; rewrite Hx in Hrf;
            try discriminate Hrf.
          unfold refused_events in Hrf. now injection Hrf. }
        apply Hrej.
        destruct Htail as [ Hx | [ Hx | Hx ] ]; rewrite Hx in Hrf;
          try discriminate Hrf. exact Hx.
Qed.

(** ** Names, paths and progress lines *)

Lemma name_joinpath dir n : name (joinpath dir n) = n.
Proof. unfold name, joinpath. apply last_last. Qed.

(** Two entries of one directory with the same progress line are the same
    entry. *)
Lemma progress_line_inj dir n1 n2 :
  progress_line (joinpath dir n1) = progress_line (joinpath dir n2) -> n1 = n2.
Proof.
  unfold progress_line, path_str, joinpath.
  rewrite !StrFacts.join_snoc. intros H.
  apply StrFacts.append_inj_l in H.
  rewrite <- !StrFacts.append_assoc in H.
  apply StrFacts.append_inj_r in H.
  rewrite !StrFacts.append_assoc in H.
  now apply StrFacts.append_inj_l, StrFacts.append_inj_l in H.
Qed.

Lemma output_files_children root dir p :
  In p (output_files root dir) ->
  exists n, p = joinpath dir n /\ In n (listdir root dir).
Proof.
  unfold output_files. rewrite in_map_iff.
  intros (n & <- & Hn). apply filter_In in Hn as [Hn _]. now exists n.
Qed.

Lemma output_files_NoDup root dir :
  List.NoDup (listdir root dir) -> List.NoDup (output_files root dir).
Proof.
  unfold output_files. intros H.
  apply (List.NoDup_filter (Str.fnmatch "*.gz")) in H.
  induction H as [|n l Hn Hl IH]; cbn [map]; constructor; [|exact IH].
  rewrite in_map_iff. intros (m & Hm & Hin).
  unfold joinpath in Hm. apply app_inv_head in Hm. congruence.
Qed.

(** ** The claims *)

(** C1, as amended.  The files for which the script makes an upload call
    are, in enumeration order, a first part of the immediate children of the
    output directory whose names end in [.gz], and all of them when the run
    ends without an error; no other file is opened, the directory is scanned
    at most once, and after a run without error one asset per such child is
    stored.  The children meant are the paths [outDir / n] for the names [n]
    that the directory itself lists and that end in [.gz]. *)
Theorem attempted_uploads_gz_children w s r s' output_dir :
  environ w !! "OUT_PATH" = Some output_dir ->
  update_release w s = (r, s') ->
  (forall p,
      In p (gz_children (fs s) (resolve w output_dir)) <->
      exists n, p = joinpath (resolve w output_dir) n /\
                In n (listdir (fs s) (resolve w output_dir)) /\
                Str.ends_with ".gz" n) /\
  exists t,
    trace s' = trace s ++ t /\
    attempted t `prefix_of` gz_children (fs s) (resolve w output_dir) /\
    (forall p, In p (opened t) ->
               In p (gz_children (fs s) (resolve w output_dir))) /\
    length (globbed t) <= 1 /\
    (r = Ok tt ->
     attempted t = gz_children (fs s) (resolve w output_dir) /\
     exists rel,
       assets s' = assets s
                   ++ map (asset_of (fs s) rel)
                        (gz_children (fs s) (resolve w output_dir))).
Proof.
  intros Hout H.
  split; [intros p; apply gz_children_spec|].
  apply update_release_shape in H
    as [(e & t & -> & -> & Ht & _)
       | (owner & repo & tag & rel & out & HR & H)].
  - exists t. apply lookup_phase_read in Ht as (A & O & _ & G & _).
    rewrite A, O, G. conjs.
    + reflexivity.
    + apply prefix_nil.
    + intros p [].
    + simpl. lia.
    + discriminate.
  - assert (out = resolve w output_dir) as ->.
    { destruct HR as (? & ? & od & ? & ? & _ & _ & Hod & _ & _ & _ & _ & _ & ->).
      congruence. }
    rewrite output_files_gz_children in H.
    apply upload_loop_shape in H
      as (done & tail & Hfs & Has & Htr & _ & Hcase).
    cbn [fs assets trace add_events] in Hfs, Has, Htr.
    set (pre := prelude_events w owner repo tag (resolve w output_dir)) in *.
    exists (pre ++ flat_map (attach_events rel) done ++ tail).
    destruct (prelude_read w owner repo tag (resolve w output_dir))
      as (PA & PO & _ & PG & _).
    destruct (turns_read rel done) as (TA & TO & _ & TG & _).
    fold pre in PA, PO, PG.
    rewrite !attempted_app, !opened_app, !globbed_app, PA, PO, PG, TA, TO, TG.
    cbn [app].
    split; [now rewrite Htr, <- app_assoc|].
    destruct Hcase as [(-> & -> & ->)
                      | (f & rest & e & -> & Hfiles & [(-> & ->)|(-> & ->)])].
    + cbn. rewrite !app_nil_r. conjs; try done.
      intros _. split; [reflexivity|]. exists rel. exact Has.
    + rewrite Hfiles. cbn. rewrite app_nil_r. conjs.
      * now apply prefix_app_r.
      * intros p Hp. apply in_app_iff in Hp as [Hp|[<-|[]]];
          apply in_app_iff; [left | right; left]; done.
      * rewrite ?length_app; simpl; lia.
      * discriminate.
    + rewrite Hfiles. cbn. conjs.
      * exists rest. now rewrite <- app_assoc.
      * intros p Hp. apply in_app_iff in Hp as [Hp|[<-|[]]];
          apply in_app_iff; [left | right; left]; done.
      * rewrite ?length_app; simpl; lia.
      * discriminate.
Qed.

(** C1, the example of the specification: of [a.tar.gz], [b.gz] and
    [c.txt], upload calls are made for the first two. *)
Lemma attempted_uploads_gz_children_witness :
  attempted (trace (snd (update_release Sample.w3 Sample.s3)))
  = [Sample.out ++ ["a.tar.gz"]; Sample.out ++ ["b.gz"]].
Proof.
  destruct (attempted_uploads_gz_children Sample.w3 Sample.s3 (Ok tt)
              (snd (update_release Sample.w3 Sample.s3)) "/work/out")
    as (_ & t & Ht & _ & _ & _ & Hok).
  - reflexivity.
  - vm_compute. reflexivity.
  - destruct (Hok eq_refl) as [Ha _]. rewrite Ht. exact Ha.
Defined.

(** C1 as it is stated fails when an upload is refused: [b.gz] ends in
    [.gz] and is a child of the output directory, and no upload call is made
    for it once the upload of [a.tar.gz] has raised. *)
Lemma refused_upload_leaves_artifact_unattempted :
  ~ (forall p,
        In p (attempted
                (trace (snd (Sample.run
                               (Sample.world_of Sample.env
                                  (Sample.refuse "a.tar.gz"))
                               (Sample.root_of "v1.2.3" Sample.three)))))
        <-> In p (gz_children (Sample.root_of "v1.2.3" Sample.three)
                    Sample.out)).
Proof.
  intros H. destruct (H (Sample.out ++ ["b.gz"])) as [_ H2].
  assert (In (Sample.out ++ ["b.gz"])
            (gz_children (Sample.root_of "v1.2.3" Sample.three) Sample.out))
    as Hin by (vm_compute; auto).
  apply H2 in Hin. vm_compute in Hin.
  destruct Hin as [Hin|[]]. discriminate Hin.
Qed.

(** The tag of every release lookup the script makes is the text of the
    [VERSION] file as text mode yields it; and when the run gets as far as
    the lookup, exactly one lookup is made, with that text. *)
Lemma lookup_tag_version_text w s r s' :
  update_release w s = (r, s') ->
  exists t,
    trace s' = trace s ++ t /\
    (forall tag, In tag (looked_up t) -> version_text w (fs s) = Some tag) /\
    (forall owner repo tag github_repo,
        reaches_lookup w s owner repo tag github_repo ->
        looked_up t = [tag]).
Proof.
  intros H.
  pose proof H as H0.
  apply update_release_shape in H
    as [(e & t & -> & -> & Ht & Hv & _)
       | (owner & repo & tag & rel & out & HR & H)].
  - exists t. conjs; [reflexivity | |].
    + intros tag Hin. now apply Hv, looked_up_in.
    + intros owner repo tag gr HL.
      destruct (reaches_lookup_cases _ _ _ _ _ _ HL)
        as [HN | (rel & out & HR)].
      * rewrite (update_release_not_found _ _ _ _ _ _ HL HN) in H0.
        assert (add_events (lookup_events w owner repo tag) s = add_events t s)
          as HE by congruence.
        apply (f_equal trace) in HE. cbn [trace add_events] in HE.
        apply app_inv_head in HE. now rewrite <- HE.
      * rewrite (update_release_reaches _ _ _ _ _ _ _ HR) in H0.
        apply upload_loop_shape in H0 as (done & tail & _ & _ & Htr & _).
        cbn [trace add_events] in Htr. rewrite <- app_assoc in Htr.
        apply app_inv_head in Htr. rewrite Htr in Ht. discriminate Ht.
  - pose proof (reaches_loop_version _ _ _ _ _ _ _ HR) as HV.
    apply upload_loop_shape in H as (done & tail & _ & _ & Htr & _ & Hcase).
    cbn [trace add_events] in Htr.
    exists (prelude_events w owner repo tag out
            ++ flat_map (attach_events rel) done ++ tail).
    assert (looked_up tail = []) as HT.
    { destruct Hcase as [(_ & _ & ->)|(f & ? & ? & _ & _ & [(_ & ->)|(_ & ->)])];
        reflexivity. }
    destruct (turns_read rel done) as (_ & _ & _ & _ & TL).
    rewrite !looked_up_app, TL, HT. cbn [app looked_up prelude_events].
    conjs.
    + now rewrite Htr, <- app_assoc.
    + intros tag' [<-|[]]. exact HV.
    + intros owner' repo' tag' gr HL.
      apply reaches_lookup_version in HL. cbn. congruence.
Qed.

Lemma universal_newlines_leaves_no_cr s :
  Str.count Str.CR (Str.universal_newlines s) = 0 /\
  forall c, Str.count Str.CR (Str.universal_newlines (String c s)) = 0.
Proof.
  induction s as [|d s [IH1 IH2]].
  - split; [reflexivity|]. intros c. cbn.
    destruct (Ascii.eqb c Str.CR) eqn:E; cbn; [reflexivity | now rewrite E].
  - split; [apply IH2|]. intros c.
    cbn [Str.universal_newlines].
    destruct (Ascii.eqb c Str.CR) eqn:E.
    + destruct (Ascii.eqb d Str.LF); cbn [Str.count Ascii.eqb];
        [exact IH1 | apply IH2].
    + cbn [Str.count]. rewrite E. apply IH2.
Qed.

Lemma universal_newlines_without_cr s :
  Str.count Str.CR s = 0 -> Str.universal_newlines s = s.
Proof.
  induction s as [|c s IH]; [reflexivity|].
  cbn [Str.count Str.universal_newlines].
  destruct (Ascii.eqb c Str.CR); [discriminate|].
  intros H. now rewrite IH.
Qed.

(** C2, as amended.  The tag of every release lookup the script makes is
    what reading the [VERSION] file in text mode yields: the bytes of the
    file decoded by the codec of the locale, with line ends translated (the
    tag holds no carriage return) and nothing else changed, so that a text
    without carriage returns is the tag as it stands, untrimmed; and when
    the run gets as far as the lookup, exactly one lookup is made, with that
    text. *)
Theorem release_lookup_tag_is_version_text w s r s' :
  update_release w s = (r, s') ->
  exists t,
    trace s' = trace s ++ t /\
    (forall tag,
        In tag (looked_up t) ->
        exists repo_dir bytes text,
          environ w !! "MAIN_REPO_DIR" = Some repo_dir /\
          lookup_node (fs s) (joinpath (resolve w repo_dir) "VERSION")
          = Some (File bytes) /\
          decode w bytes = Some text /\
          tag = Str.universal_newlines text /\
          Str.count Str.CR tag = 0 /\
          (Str.count Str.CR text = 0 -> tag = text)) /\
    (forall owner repo tag github_repo,
        reaches_lookup w s owner repo tag github_repo ->
        looked_up t = [tag]).
Proof.
  intros H.
  destruct (lookup_tag_version_text _ _ _ _ H) as (t & Ht & Htag & Hone).
  exists t. conjs; [exact Ht | | exact Hone].
  intros tag Hin. apply Htag in Hin. unfold version_text in Hin.
  destruct (environ w !! "MAIN_REPO_DIR") as [repo_dir|]; [|discriminate Hin].
  apply text_at_Some in Hin as (bytes & text & HL & HD & ->).
  exists repo_dir, bytes, text. conjs; try done.
  - apply universal_newlines_leaves_no_cr.
  - apply universal_newlines_without_cr.
Qed.

(** C2, the example of the specification: a [VERSION] file that holds
    [v1.2.3] makes the one lookup ask for [v1.2.3]. *)
Lemma release_lookup_tag_is_version_text_witness :
  looked_up (trace (snd (update_release Sample.w3 Sample.s3))) = ["v1.2.3"].
Proof.
  destruct (release_lookup_tag_is_version_text Sample.w3 Sample.s3 (Ok tt)
              (snd (update_release Sample.w3 Sample.s3)))
    as (t & Ht & _ & Hb).
  - vm_compute. reflexivity.
  - rewrite Ht. apply (Hb "gardener" "component-cli" "v1.2.3" 7).
    exists "gardener/component-cli", "/work/repo", "/work/out", "token".
    now conjs.
Defined.

(** C2 as it is stated fails for a [VERSION] file with a DOS line end: the
    file holds [v1.2.3], a carriage return and a line feed, and the lookup is
    made with [v1.2.3] and a line feed. *)
Lemma crlf_version_is_not_looked_up_verbatim :
  lookup_node (fs Sample.s_crlf) ["work"; "repo"; "VERSION"]
  = Some (File ("v1.2.3" +:+ Sample.crlf)) /\
  looked_up (trace (snd (update_release Sample.w3 Sample.s_crlf)))
  = ["v1.2.3" +:+ Sample.newline] /\
  ~ (looked_up (trace (snd (update_release Sample.w3 Sample.s_crlf)))
     = ["v1.2.3" +:+ Sample.crlf]).
Proof.
  conjs; [reflexivity | reflexivity |].
  vm_compute. discriminate.
Qed.

(** A line end after the version is part of the tag that is looked up. *)
Example version_text_not_trimmed :
  fst (Sample.run Sample.w3
         (Sample.root_of ("v1.2.3" +:+ Sample.newline) Sample.three))
  = Raise (ReleaseNotFound ("v1.2.3" +:+ Sample.newline)).
Proof. reflexivity. Qed.

(** C3.  When the files before [f] have been attached and the turn for [f]
    raises, the script ends with that exception whatever files follow; the
    calls made are the complete turns of the files before [f] and a first
    part of the turn of [f], so no call is made for a later file; and the
    assets of the files before [f] are stored as they were when uploaded. *)
Theorem failed_upload_ends_run w s owner repo tag rel out pre f post s1 e s2 :
  reaches_loop w s owner repo tag rel out ->
  output_files (fs s) out = pre ++ f :: post ->
  for_each pre (attach w rel)
    (add_events (prelude_events w owner repo tag out) s) = (Ok tt, s1) ->
  attach w rel f s1 = (Raise e, s2) ->
  update_release w s = (Raise e, s2) /\
  assets s2 = assets s ++ map (asset_of (fs s) rel) pre /\
  exists tail,
    trace s2 = trace s ++ prelude_events w owner repo tag out
               ++ flat_map (attach_events rel) pre ++ tail /\
    tail `prefix_of` refused_events rel f /\
    attempted (flat_map (attach_events rel) pre ++ tail) `prefix_of` pre ++ [f] /\
    (e = UploadRejected (name f) ->
     attempted (flat_map (attach_events rel) pre ++ tail) = pre ++ [f]).
Proof.
  intros HR Hfiles Hpre Hf.
  split.
  { rewrite (update_release_reaches _ _ _ _ _ _ _ HR), Hfiles, for_each_app, Hpre.
    simpl. unfold bind. now rewrite Hf. }
  apply upload_loop_shape in Hpre as (done & tail0 & Hfs & Has & Htr & _ & Hc).
  destruct Hc as [(_ & -> & ->) | (? & ? & ? & ? & _)]; [|discriminate].
  cbn [fs assets trace add_events] in Hfs, Has, Htr.
  rewrite app_nil_r in Htr.
  destruct (turns_read rel pre) as (TA & _).
  apply attach_raises in Hf as (Hfs2 & Has2 & [(-> & ->) | (-> & _ & ->)]).
  - split; [now rewrite Has2, Has|].
    exists [EPrint (progress_line f); EOpen f "rb"].
    cbn [trace add_events]. rewrite Htr, attempted_app, TA. conjs.
    + now rewrite <- !app_assoc.
    + now exists [upload_call rel f].
    + cbn. rewrite app_nil_r. now apply prefix_app_r.
    + discriminate.
  - split; [cbn [assets add_handle add_events] in *; now rewrite Has|].
    exists (refused_events rel f).
    cbn [trace add_events add_handle]. rewrite Htr, attempted_app, TA. conjs.
    + now rewrite <- !app_assoc.
    + reflexivity.
    + reflexivity.
    + reflexivity.
Qed.

(** C3, the example of the specification: the third of five uploads is
    refused; the run ends with that refusal, the first two assets are
    stored, and upload calls were made for the first three files only. *)
Lemma failed_upload_ends_run_witness :
  fst (update_release Sample.w5 Sample.s5) = Raise (UploadRejected "c.gz") /\
  map a_name (assets (snd (update_release Sample.w5 Sample.s5)))
  = ["a.gz"; "b.gz"] /\
  attempted (trace (snd (update_release Sample.w5 Sample.s5)))
  = [Sample.out ++ ["a.gz"]; Sample.out ++ ["b.gz"]; Sample.out ++ ["c.gz"]].
Proof.
  destruct (failed_upload_ends_run Sample.w5 Sample.s5
              "gardener" "component-cli" "v1.2.3" 42 Sample.out
              [Sample.out ++ ["a.gz"]; Sample.out ++ ["b.gz"]]
              (Sample.out ++ ["c.gz"])
              [Sample.out ++ ["d.gz"]; Sample.out ++ ["e.gz"]]
              Sample.s5_two (UploadRejected "c.gz") Sample.s5_three)
    as (H1 & H2 & tail & H3 & _ & _ & H4).
  - exists "gardener/component-cli", "/work/repo", "/work/out", "token", 7.
    now conjs.
  - reflexivity.
  - vm_compute. reflexivity.
  - vm_compute. reflexivity.
  - rewrite H1. cbn [fst snd]. rewrite H2, H3.
    split; [reflexivity|]. split; [reflexivity|].
    rewrite !attempted_app. rewrite <- attempted_app.
    now rewrite (H4 eq_refl).
Defined.

Lemma config_failure_kind w e : config_failure w e -> kind_of e = ConfigurationError.
Proof. intros [(var & -> & _) | (oan & _ & -> & _)]; reflexivity. Qed.

Lemma loop_error_kind w rel files s e s' :
  for_each files (attach w rel) s = (Raise e, s') ->
  kind_of e <> ConfigurationError.
Proof.
  intros H. apply upload_loop_shape in H as (? & ? & _ & _ & _ & _ & Hc).
  destruct Hc as [(? & _) | (f & ? & e' & He & _ & [(-> & _) | (-> & _)])];
    [discriminate | |]; injection He as ->; discriminate.
Qed.

(** C4, as amended.  With the three variables set, the run ends with a
    configuration error, in the state in which it started (no file read, no
    network call), when the owner/name string does not hold exactly one
    [/]; when it holds exactly one, the string unpacks into the two pieces
    around it, empty or not, and the run goes on: its first call reads the
    version file, and it does not end with a configuration error. *)
Theorem owner_and_name_needs_one_separator w s r s' repo_owner_and_name :
  environ w !! "SOURCE_GITHUB_REPO_OWNER_AND_NAME" = Some repo_owner_and_name ->
  environ w !! "MAIN_REPO_DIR" <> None ->
  environ w !! "OUT_PATH" <> None ->
  update_release w s = (r, s') ->
  (Str.count "/" repo_owner_and_name <> 1 ->
   exists e, r = Raise e /\ kind_of e = ConfigurationError /\ s' = s) /\
  (Str.count "/" repo_owner_and_name = 1 ->
   exists owner repo t,
     Str.split "/" repo_owner_and_name = [owner; repo] /\
     repo_owner_and_name = owner +:+ "/" +:+ repo /\
     trace s' = trace s ++ EReadText (version_file w) :: t /\
     forall e, r = Raise e -> kind_of e <> ConfigurationError).
Proof.
  intros H1 H2 H3 H.
  pose proof (StrFacts.split_length "/" repo_owner_and_name) as HL.
  pose proof (StrFacts.join_split "/" repo_owner_and_name) as HJ.
  apply update_release_shape in H
    as [(e & t & -> & -> & _ & _ & [(-> & HC) | HB])
       | (owner & repo & tag & rel & out & HR & H)].
  - (* lines 11 to 15 raise *)
    rewrite add_events_nil.
    destruct HC as [(var & -> & Hv & Hin) | (oan & Ho & -> & Hn)].
    + exfalso. simpl in Hin.
      destruct Hin as [<-|[<-|[<-|[]]]]; congruence.
    + assert (oan = repo_owner_and_name) as -> by congruence.
      split; [|intros Hc; rewrite Hc in HL; contradiction].
      intros _. eexists. now conjs.
  - (* a later call raises *)
    destruct HB as (t' & oan & owner & repo & -> & Hk & Ho & Hs).
    assert (oan = repo_owner_and_name) as -> by congruence.
    rewrite Hs in HL, HJ. simpl in HL.
    split; [intros Hc; exfalso; apply Hc; lia|].
    intros _. exists owner, repo, t'.
    conjs; [exact Hs | symmetry; exact HJ | reflexivity |].
    intros e' He. now injection He as <-.
  - (* the loop is reached *)
    pose proof HR as (oan & ? & ? & ? & ? & Ho & _ & _ & Hs & _).
    assert (oan = repo_owner_and_name) as -> by congruence.
    rewrite Hs in HL, HJ. simpl in HL.
    split; [intros Hc; exfalso; apply Hc; lia|].
    intros _.
    pose proof H as H'.
    apply upload_loop_shape in H as (done & tail & _ & _ & Htr & _).
    cbn [trace add_events prelude_events lookup_events app] in Htr.
    rewrite <- app_assoc in Htr. cbn [app] in Htr.
    exists owner, repo. eexists.
    conjs; [exact Hs | symmetry; exact HJ | exact Htr |].
    intros e' ->. now apply loop_error_kind in H'.
Qed.

(** C4: a string with two separators ends the run at once, with a
    configuration error and nothing done. *)
Lemma owner_and_name_needs_one_separator_witness :
  exists e,
    fst (update_release Sample.w_two_slashes Sample.s3) = Raise e /\
    kind_of e = ConfigurationError /\
    snd (update_release Sample.w_two_slashes Sample.s3) = Sample.s3.
Proof.
  destruct (owner_and_name_needs_one_separator Sample.w_two_slashes Sample.s3
              (fst (update_release Sample.w_two_slashes Sample.s3))
              (snd (update_release Sample.w_two_slashes Sample.s3))
              "gardener/component-cli/x")
    as [Hbad _].
  - reflexivity.
  - discriminate.
  - discriminate.
  - apply surjective_pairing.
  - apply Hbad. vm_compute. lia.
Defined.

(** C4 as it is stated fails for an empty owner: [/component-cli] unpacks,
    the version file is read and the API is called, and the run does not end
    with a configuration error. *)
Lemma empty_owner_is_not_refused :
  ~ (exists e,
        fst (update_release Sample.w_no_owner Sample.s3) = Raise e /\
        kind_of e = ConfigurationError /\
        trace (snd (update_release Sample.w_no_owner Sample.s3)) = [])
  /\ In (EReadText ["work"; "repo"; "VERSION"])
        (trace (snd (update_release Sample.w_no_owner Sample.s3)))
  /\ In (ERepository "" "component-cli")
        (trace (snd (update_release Sample.w_no_owner Sample.s3))).
Proof.
  split; [|split].
  - intros (e & _ & _ & H). vm_compute in H. discriminate H.
  - vm_compute. auto.
  - vm_compute. auto.
Qed.

(** C5.  An upload call is made only in a run whose release lookup has
    returned a release, after that lookup and on that release; and when the
    lookup is reached and no release carries the tag of the version file,
    the run ends with the not-found error of the lookup, no upload call has
    been made and no asset has been stored. *)
Theorem release_resolved_before_upload w s r s' :
  update_release w s = (r, s') ->
  exists t,
    trace s' = trace s ++ t /\
    (forall t1 e t2,
        t = t1 ++ e :: t2 -> is_upload e = true ->
        exists owner repo tag rel out,
          reaches_loop w s owner repo tag rel out /\
          In (EReleaseFromTag tag) t1 /\
          exists g, e = upload_call rel g) /\
    (forall owner repo tag github_repo,
        reaches_lookup w s owner repo tag github_repo ->
        release_from_tag w github_repo tag = None ->
        r = Raise (ReleaseNotFound tag) /\
        kind_of (ReleaseNotFound tag) = ReleaseNotFoundError /\
        attempted t = [] /\
        assets s' = assets s).
Proof.
  intros H.
  destruct (upload_call_context _ _ _ _ H) as (t & Ht & _ & _ & _ & _ & Hctx).
  exists t. conjs; [exact Ht | |].
  - intros t1 e t2 E He.
    destruct (Hctx t1 e t2 E He)
      as (owner & repo & tag & rel & out & before & g & HR & -> & -> & _).
    exists owner, repo, tag, rel, out. conjs; [exact HR | | now exists g].
    apply in_or_app. left. cbn. tauto.
  - intros owner repo tag gr HL HN.
    rewrite (update_release_not_found _ _ _ _ _ _ HL HN) in H.
    injection H as <- <-. cbn [trace add_events] in Ht.
    apply app_inv_head in Ht. subst t. now conjs.
Qed.

(** C5: no release is tagged [v9.9.9]; the run ends with the not-found
    error and without an upload call. *)
Lemma release_resolved_before_upload_witness :
  fst (update_release Sample.w3 Sample.s9) = Raise (ReleaseNotFound "v9.9.9") /\
  attempted (trace (snd (update_release Sample.w3 Sample.s9))) = [].
Proof.
  destruct (release_resolved_before_upload Sample.w3 Sample.s9
              (fst (update_release Sample.w3 Sample.s9))
              (snd (update_release Sample.w3 Sample.s9)))
    as (t & Ht & _ & Hb).
  - apply surjective_pairing.
  - destruct (Hb "gardener" "component-cli" "v9.9.9" 7) as (Hr & _ & Ha & _).
    + exists "gardener/component-cli", "/work/repo", "/work/out", "token".
      now conjs.
    + reflexivity.
    + split; [exact Hr | rewrite Ht; exact Ha].
Defined.




Lemma uploads_app t1 t2 : uploads (t1 ++ t2) = uploads t1 ++ uploads t2.
Proof. unfold uploads. apply List.filter_app. Qed.

Lemma uploads_turns rel l :
  uploads (flat_map (attach_events rel) l) = map (upload_call rel) l.
Proof.
  induction l as [|f l IH]; [reflexivity|].
  cbn [flat_map attach_events app map]. cbn. now f_equal.
Qed.

Lemma lookup_phase_uploads t :
  forallb lookup_phase t = true -> uploads t = [].
Proof.
  induction t as [|e t IH]; [reflexivity|].
  cbn [forallb]. intros H. apply andb_prop in H as [He Ht].
  destruct e; try discriminate He; cbn; now apply IH.
Qed.

(** The upload calls of a run, one after the other: those of a first part
    of the enumerated files, of all of them when the run ends without an
    error; and then a progress line was printed for each file, and no other
    line. *)
Lemma uploads_of_run w s r s' output_dir :
  environ w !! "OUT_PATH" = Some output_dir ->
  update_release w s = (r, s') ->
  exists t rel,
    trace s' = trace s ++ t /\
    uploads t = map (upload_call rel) (attempted t) /\
    attempted t `prefix_of` gz_children (fs s) (resolve w output_dir) /\
    (r = Ok tt ->
     attempted t = gz_children (fs s) (resolve w output_dir) /\
     printed t = map progress_line (gz_children (fs s) (resolve w output_dir))).
Proof.
  intros Hout H.
  apply update_release_shape in H
    as [(e & t & -> & -> & Ht & _)
       | (owner & repo & tag & rel & out & HR & H)].
  - exists t, 0. rewrite (lookup_phase_uploads t Ht).
    apply lookup_phase_read in Ht as (A & _).
    rewrite A. conjs; [reflexivity | reflexivity | apply prefix_nil | discriminate].
  - assert (out = resolve w output_dir) as ->.
    { destruct HR as (? & ? & od & ? & ? & _ & _ & Hod & _ & _ & _ & _ & _ & ->).
      congruence. }
    rewrite output_files_gz_children in H.
    apply upload_loop_shape in H as (done & tail & _ & _ & Htr & _ & Hcase).
    cbn [trace add_events] in Htr.
    exists (prelude_events w owner repo tag (resolve w output_dir)
            ++ flat_map (attach_events rel) done ++ tail), rel.
    destruct (prelude_read w owner repo tag (resolve w output_dir))
      as (PA & _ & PP & _).
    destruct (turns_read rel done) as (TA & _ & TP & _).
    rewrite !attempted_app, !uploads_app, !printed_app, PA, PP, TA, TP,
      uploads_turns.
    cbn [app].
    split; [now rewrite Htr, <- app_assoc|].
    destruct Hcase as [(-> & -> & ->)
                      | (f & rest & e & -> & Hfiles & [(-> & ->)|(-> & ->)])].
    + cbn. rewrite !app_nil_r. now conjs.
    + rewrite Hfiles. cbn. rewrite !app_nil_r.
      conjs; [reflexivity | now apply prefix_app_r | discriminate].
    + rewrite Hfiles. cbn. rewrite map_app.
      conjs; [reflexivity | | discriminate].
      exists rest. now rewrite <- app_assoc.
Qed.

(** C7.  The upload calls of a run are, in order, those of a first part of
    the enumerated files, and of every enumerated file when the run ends
    without an error; the call for a file is made on the resolved release
    with content type [application/gzip], with the base name of the file
    and with the file object opened on it.  The last line printed before an
    upload call is the progress line of its file, and no earlier line of the
    run is that line; a run without error prints that line for every
    enumerated file and nothing else. *)
Theorem upload_call_arguments_and_progress_line w s r s' output_dir :
  environ w !! "OUT_PATH" = Some output_dir ->
  List.NoDup (listdir (fs s) (resolve w output_dir)) ->
  update_release w s = (r, s') ->
  exists t rel,
    trace s' = trace s ++ t /\
    uploads t
    = map (fun f => EUploadAsset rel "application/gzip" (name f) (Handle f "rb"))
        (attempted t) /\
    attempted t `prefix_of` gz_children (fs s) (resolve w output_dir) /\
    (r = Ok tt ->
     attempted t = gz_children (fs s) (resolve w output_dir) /\
     printed t = map progress_line (gz_children (fs s) (resolve w output_dir))) /\
    forall t1 rel' content_type asset_name h t2,
      t = t1 ++ EUploadAsset rel' content_type asset_name h :: t2 ->
      content_type = "application/gzip" /\
      asset_name = name (h_path h) /\
      In (h_path h) (gz_children (fs s) (resolve w output_dir)) /\
      (exists child, h_path h = joinpath (resolve w output_dir) child /\
                     asset_name = child) /\
      exists lines,
        printed t1 = lines ++ [progress_line (h_path h)] /\
        ~ In (progress_line (h_path h)) lines.
Proof.
  intros Hout Hnd H.
  destruct (uploads_of_run _ _ _ _ _ Hout H) as (t & rel0 & Ht & Hu & Hp0 & Hok).
  destruct (upload_call_context _ _ _ _ H) as (t' & Ht' & _ & _ & _ & _ & Hctx).
  assert (t' = t) as ->.
  { rewrite Ht in Ht'. now apply app_inv_head in Ht'. }
  exists t, rel0. conjs; [exact Ht | exact Hu | exact Hp0 | exact Hok |].
  intros t1 rel' ct n h t2 E.
  destruct (Hctx t1 _ t2 E eq_refl)
    as (owner & repo & tag & rel & out & before & g & HR & He & -> & Hp & _).
  injection He as -> -> -> ->. cbn [h_path asset_handle].
  assert (out = resolve w output_dir) as ->.
  { destruct HR as (? & ? & od & ? & ? & _ & _ & Hod & _ & _ & _ & _ & _ & ->).
    congruence. }
  pose proof (output_files_NoDup _ _ Hnd) as HN.
  destruct Hp as (k & Hk).
  assert (In g (output_files (fs s) (resolve w output_dir))) as Hg.
  { rewrite Hk. apply in_or_app. left. apply in_or_app. right. now left. }
  destruct (output_files_children _ _ _ Hg) as (child & Hc & _).
  conjs; try reflexivity.
  - now rewrite <- output_files_gz_children.
  - exists child. split; [exact Hc|]. rewrite Hc. apply name_joinpath.
  - exists (map progress_line before).
    destruct (turns_read rel before) as (_ & _ & TP & _).
    rewrite !printed_app, TP. split; [reflexivity|].
    rewrite in_map_iff. intros (b & Hb & Hin).
    assert (In b (output_files (fs s) (resolve w output_dir))) as Hbo.
    { rewrite Hk. apply in_or_app. left. apply in_or_app. now left. }
    destruct (output_files_children _ _ _ Hbo) as (cb & Hcb & _).
    rewrite Hcb, Hc in Hb. apply progress_line_inj in Hb.
    rewrite Hk in HN. apply List.NoDup_app_remove_r in HN.
    apply List.NoDup_remove_2 in HN. rewrite app_nil_r in HN.
    apply HN. congruence.
Qed.

(** C7: the run on the three-entry directory makes two upload calls, for
    [a.tar.gz] and then for [b.gz], each under its base name. *)
Lemma upload_call_arguments_and_progress_line_witness :
  exists rel,
    uploads (trace (snd (update_release Sample.w3 Sample.s3)))
    = [EUploadAsset rel "application/gzip" "a.tar.gz"
         (Handle (Sample.out ++ ["a.tar.gz"]) "rb");
       EUploadAsset rel "application/gzip" "b.gz"
         (Handle (Sample.out ++ ["b.gz"]) "rb")].
Proof.
  destruct (upload_call_arguments_and_progress_line Sample.w3 Sample.s3
              (Ok tt)
              (snd (update_release Sample.w3 Sample.s3)) "/work/out")
    as (t & rel & Ht & Hu & _ & Hok & _).
  - reflexivity.
  - vm_compute. repeat constructor; simpl; intuition discriminate.
  - vm_compute. reflexivity.
  - exists rel. destruct (Hok eq_refl) as [Ha _].
    rewrite Ht. cbn [Sample.s3 Sample.start trace app].
    rewrite Hu, Ha. reflexivity.
Defined.

Lemma filter_none {A : Type} (f : A -> bool) l :
  (forall x, In x l -> f x = false) -> List.filter f l = [].
Proof.
  induction l as [|x l IH]; intros H; [reflexivity|].
  cbn [List.filter]. rewrite (H x (or_introl eq_refl)).
  apply IH. intros y Hy. apply H. now right.
Qed.

(** C8.  When no entry of the output directory has a name that ends in
    [.gz], no run prints a progress line, opens a file, makes an upload call
    or stores an asset, and the run ends without an error exactly when the
    steps before the loop succeed: the empty artifact set is not an error. *)
Theorem no_artifacts_is_success w s r s' output_dir :
  environ w !! "OUT_PATH" = Some output_dir ->
  (forall n, In n (listdir (fs s) (resolve w output_dir)) ->
             ~ Str.ends_with ".gz" n) ->
  update_release w s = (r, s') ->
  (exists t,
      s' = add_events t s /\
      attempted t = [] /\ opened t = [] /\ printed t = []) /\
  assets s' = assets s /\
  (r = Ok tt <->
   exists owner repo tag rel,
     reaches_loop w s owner repo tag rel (resolve w output_dir)).
Proof.
  intros Hout Hnone H.
  assert (output_files (fs s) (resolve w output_dir) = []) as Hfiles.
  { rewrite output_files_gz_children. unfold gz_children.
    rewrite filter_none; [reflexivity|].
    intros n Hn. destruct (Str.has_suffix ".gz" n) eqn:E; [|reflexivity].
    exfalso. apply (Hnone n Hn). now apply StrFacts.has_suffix_ends_with. }
  assert (forall owner repo tag rel,
             reaches_loop w s owner repo tag rel (resolve w output_dir) ->
             (r, s') = (Ok tt, add_events
                                 (prelude_events w owner repo tag
                                    (resolve w output_dir)) s)) as Hreach.
  { intros owner repo tag rel HR.
    rewrite (update_release_reaches _ _ _ _ _ _ _ HR), Hfiles in H.
    now symmetry. }
  destruct (update_release_cases w s)
    as [(e & t & E & Ht & _) | (owner & repo & tag & rel & out & HR & _)].
  - rewrite E in H. injection H as <- <-.
    apply lookup_phase_read in Ht as (A & O & P & _).
    conjs; [now exists t | reflexivity |].
    split; [discriminate|].
    intros (owner & repo & tag & rel & HR).
    now apply Hreach in HR.
  - assert (out = resolve w output_dir) as ->.
    { destruct HR as (? & ? & od & ? & ? & _ & _ & Hod & _ & _ & _ & _ & _ & ->).
      congruence. }
    pose proof (Hreach _ _ _ _ HR) as HE. injection HE as -> ->.
    conjs; [eexists; now conjs | reflexivity |].
    split; [intros _|reflexivity]. now exists owner, repo, tag, rel.
Qed.

(** C8: an output directory with [c.txt], a file called [gz] and a nested
    [d.gz]: the run succeeds and uploads nothing. *)
Lemma no_artifacts_is_success_witness :
  fst (update_release Sample.w3 Sample.s0) = Ok tt /\
  assets (snd (update_release Sample.w3 Sample.s0)) = [].
Proof.
  destruct (no_artifacts_is_success Sample.w3 Sample.s0
              (fst (update_release Sample.w3 Sample.s0))
              (snd (update_release Sample.w3 Sample.s0)) "/work/out")
    as (_ & Hs & Hok).
  - reflexivity.
  - intros n Hn Hs. apply StrFacts.has_suffix_ends_with in Hs.
    vm_compute in Hn. destruct Hn as [<-|[<-|[<-|[]]]]; discriminate Hs.
  - apply surjective_pairing.
  - split; [|exact Hs].
    apply Hok. exists "gardener", "component-cli", "v1.2.3", 42.
    exists "gardener/component-cli", "/work/repo", "/work/out", "token", 7.
    now conjs.
Defined.

(** C9.  When one of the three variables is not set, the run ends at once
    with the configuration error of the first one that is missing, in the
    state in which it started: no file has been read, no credentials
    resolved, no network call made. *)
Theorem missing_variable_fails_fast w s :
  (exists var, In var required_env /\ environ w !! var = None) ->
  exists var,
    In var required_env /\ environ w !! var = None /\
    update_release w s = (Raise (EnvNotSet var), s) /\
    kind_of (EnvNotSet var) = ConfigurationError.
Proof.
  intros (var & Hin & Hv).
  unfold update_release, bind, check_env.
  destruct (environ w !! "SOURCE_GITHUB_REPO_OWNER_AND_NAME") eqn:H1;
    [| exists "SOURCE_GITHUB_REPO_OWNER_AND_NAME"; conjs; simpl; tauto].
  destruct (environ w !! "MAIN_REPO_DIR") eqn:H2;
    [| exists "MAIN_REPO_DIR"; conjs; simpl; tauto].
  destruct (environ w !! "OUT_PATH") eqn:H3;
    [| exists "OUT_PATH"; conjs; simpl; tauto].
  exfalso. simpl in Hin. destruct Hin as [<-|[<-|[<-|[]]]]; congruence.
Qed.

(** C9: without [OUT_PATH] the run ends before anything is done. *)
Lemma missing_variable_fails_fast_witness :
  update_release Sample.w_no_out Sample.s3
  = (Raise (EnvNotSet "OUT_PATH"), Sample.s3).
Proof.
  destruct (missing_variable_fails_fast Sample.w_no_out Sample.s3)
    as (var & Hin & Hv & Hrun & _).
  - exists "OUT_PATH". split; [simpl; tauto | reflexivity].
  - simpl in Hin. destruct Hin as [<-|[<-|[<-|[]]]];
      try (vm_compute in Hv; discriminate Hv).
    exact Hrun.
Defined.

(** C10.  No run changes the local file system: the tree at the end is the
    tree at the start, and none of the calls made opens a file in a mode
    that writes. *)
Theorem local_files_unchanged w s :
  fs (snd (update_release w s)) = fs s /\
  exists t,
    trace (snd (update_release w s)) = trace s ++ t /\
    forallb (fun e => negb (writes_fs e)) t = true.
Proof.
  destruct (upload_call_context w s _ _ (surjective_pairing _))
    as (t & Ht & Hfs & _ & Hw & _).
  split; [exact Hfs|]. now exists t.
Qed.

(** * Beyond the claims *)

(** ** The steps before the loop, one by one *)

Lemma update_release_after_unpack w s oan rd od owner repo :
  environ w !! "SOURCE_GITHUB_REPO_OWNER_AND_NAME" = Some oan ->
  environ w !! "MAIN_REPO_DIR" = Some rd ->
  environ w !! "OUT_PATH" = Some od ->
  Str.split "/" oan = [owner; repo] ->
  update_release w s
  = bind (read_text w (joinpath (resolve w rd) "VERSION"))
      (fun c =>
         cfg <- cfg_factory_github w "github_com" ;;
         r <- GitHubRepositoryHelper w owner repo cfg ;;
         rel <- repository_release_from_tag w r c ;;
         fl <- glob (resolve w od) "*.gz" ;;
         for_each fl (attach w rel)) s.
Proof.
  intros H1 H2 H3 H4.
  unfold update_release, bind at 1 2 3 4 5, check_env.
  rewrite H1, H2, H3. unfold ret at 1 2 3. rewrite H4. reflexivity.
Qed.

(** The outcome of the lookup phase, by the answers of the file system and
    of the collaborators. *)
Lemma lookup_phase_result w s oan rd od owner repo :
  environ w !! "SOURCE_GITHUB_REPO_OWNER_AND_NAME" = Some oan ->
  environ w !! "MAIN_REPO_DIR" = Some rd ->
  environ w !! "OUT_PATH" = Some od ->
  Str.split "/" oan = [owner; repo] ->
  match text_at w (fs s) (joinpath (resolve w rd) "VERSION") with
  | Some tag =>
      match github w "github_com" with
      | None =>
          update_release w s
          = (Raise (CfgLookupFailed "github_com"),
             add_events [EReadText (version_file w); EGithubCfg "github_com"] s)
      | Some cfg =>
          match repository w owner repo cfg with
          | None =>
              update_release w s
              = (Raise (RepositoryFailed owner repo),
                 add_events [EReadText (version_file w);
                             EGithubCfg "github_com";
                             ERepository owner repo] s)
          | Some github_repo =>
              match release_from_tag w github_repo tag with
              | None =>
                  update_release w s
                  = (Raise (ReleaseNotFound tag),
                     add_events (lookup_events w owner repo tag) s)
              | Some rel =>
                  reaches_loop w s owner repo tag rel (resolve w od) /\
                  update_release w s
                  = for_each (output_files (fs s) (resolve w od)) (attach w rel)
                      (add_events
                         (prelude_events w owner repo tag (resolve w od)) s)
              end
          end
      end
  | None =>
      update_release w s
      = (Raise
           match lookup_node (fs s) (joinpath (resolve w rd) "VERSION") with
           | Some (File _) => UnicodeDecodeError (version_file w)
           | _ => OSError (version_file w)
           end,
         add_events [EReadText (version_file w)] s)
  end.
Proof.
  intros H1 H2 H3 H4.
  assert (version_file w = joinpath (resolve w rd) "VERSION") as HF.
  { unfold version_file. now rewrite H2. }
  rewrite (update_release_after_unpack _ _ _ _ _ _ _ H1 H2 H3 H4), HF.
  unfold text_at.
  destruct (lookup_node (fs s) (joinpath (resolve w rd) "VERSION"))
    as [[bytes|es]|] eqn:H5.
  2,3: unfold bind, read_text, bind, log; cbn [fs add_event]; rewrite H5;
       reflexivity.
  destruct (decode w bytes) as [text|] eqn:H5d.
  2: unfold bind, read_text, bind, log; cbn [fs add_event]; rewrite H5, H5d;
     reflexivity.
  assert (text_at w (fs s) (joinpath (resolve w rd) "VERSION")
          = Some (Str.universal_newlines text)) as HT.
  { unfold text_at. now rewrite H5, H5d. }
  remember (Str.universal_newlines text) as tag eqn:Etag.
  destruct (github w "github_com") as [cfg|] eqn:H6.
  2: { unfold bind, read_text, bind, log. cbn [fs add_event]. rewrite H5, H5d.
       unfold cfg_factory_github, bind, log. rewrite H6. unfold raise.
       f_equal. destruct s; unfold add_events, add_event; simpl.
       now rewrite <- !app_assoc. }
  destruct (repository w owner repo cfg) as [gr|] eqn:H7.
  2: { unfold bind, read_text, bind, log. cbn [fs add_event]. rewrite H5, H5d.
       unfold cfg_factory_github, bind, log. rewrite H6. unfold ret at 1.
       unfold GitHubRepositoryHelper, bind, log. rewrite H7. unfold raise.
       f_equal. destruct s; unfold add_events, add_event; simpl.
       now rewrite <- !app_assoc. }
  assert (reaches_lookup w s owner repo tag gr) as HL.
  { exists oan, rd, od, cfg. now conjs. }
  destruct (release_from_tag w gr tag) as [rel|] eqn:H8.
  - assert (reaches_loop w s owner repo tag rel (resolve w od)) as HR.
    { exists oan, rd, od, cfg, gr. now conjs. }
    split; [exact HR|].
    rewrite <- (update_release_reaches _ _ _ _ _ _ _ HR).
    now rewrite (update_release_after_unpack _ _ _ _ _ _ _ H1 H2 H3 H4).
  - rewrite <- (update_release_not_found _ _ _ _ _ _ HL H8).
    now rewrite (update_release_after_unpack _ _ _ _ _ _ _ H1 H2 H3 H4).
Qed.

Lemma turns_loop_calls rel l :
  forallb Edge.loop_call (flat_map (attach_events rel) l) = true.
Proof. induction l as [|f l IH]; [reflexivity | exact IH]. Qed.

(** The calls of a run, in the order of the script: nothing at all, or a
    first part of the five calls that lead to the loop, or these five and
    then calls of the loop. *)
Lemma calls_shape w s r s' :
  update_release w s = (r, s') ->
  exists t,
    trace s' = trace s ++ t /\
    (t = [] \/
     exists oan od owner repo tag,
       environ w !! "SOURCE_GITHUB_REPO_OWNER_AND_NAME" = Some oan /\
       Str.split "/" oan = [owner; repo] /\
       environ w !! "OUT_PATH" = Some od /\
       (t `prefix_of` prelude_events w owner repo tag (resolve w od) \/
        exists rest,
          t = prelude_events w owner repo tag (resolve w od) ++ rest /\
          forallb Edge.loop_call rest = true)).
Proof.
  intros H.
  destruct (environ w !! "SOURCE_GITHUB_REPO_OWNER_AND_NAME") as [oan|] eqn:H1;
  [destruct (environ w !! "MAIN_REPO_DIR") as [rd|] eqn:H2;
   [destruct (environ w !! "OUT_PATH") as [od|] eqn:H3|]|].
  2-4: exists []; (split; [|now left]);
       unfold update_release, bind, check_env in H;
       rewrite ?H1, ?H2, ?H3 in H; unfold ret, raise in H;
       injection H as _ <-; now rewrite app_nil_r.
  destruct (Str.split "/" oan) as [|owner [|repo [|x l]]] eqn:H4.
  1,2,4: exists []; (split; [|now left]);
       unfold update_release, bind, check_env in H;
       rewrite H1, H2, H3 in H; unfold ret at 1 2 3 in H; rewrite H4 in H;
       unfold unpack2, raise in H;
       injection H as _ <-; now rewrite app_nil_r.
  pose proof (lookup_phase_result w s oan rd od owner repo H1 H2 H3 H4) as HP.
  match goal with
  | |- ?G =>
      assert (forall T tag,
                 s' = add_events T s ->
                 T `prefix_of` prelude_events w owner repo tag (resolve w od) ->
                 G) as Hfail
  end.
  { intros T tag -> HT. exists T. split; [reflexivity|].
    right. exists oan, od, owner, repo, tag.
    conjs; try assumption; try reflexivity. now left. }
  destruct (text_at w (fs s) (joinpath (resolve w rd) "VERSION"))
    as [tag|].
  2: rewrite HP in H;
     apply (Hfail [EReadText (version_file w)] ""); [congruence|];
     unfold prelude_events, lookup_events; cbn [app];
     eexists; reflexivity.
  destruct (github w "github_com") as [cfg|].
  2: { rewrite HP in H.
       apply (Hfail [EReadText (version_file w); EGithubCfg "github_com"] tag);
         [congruence|].
       unfold prelude_events, lookup_events. cbn [app].
       eexists. reflexivity. }
  destruct (repository w owner repo cfg) as [gr|].
  2: { rewrite HP in H.
       apply (Hfail [EReadText (version_file w); EGithubCfg "github_com";
                     ERepository owner repo] tag); [congruence|].
       unfold prelude_events, lookup_events. cbn [app].
       eexists. reflexivity. }
  destruct (release_from_tag w gr tag) as [rel|].
  2: { rewrite HP in H.
       apply (Hfail (lookup_events w owner repo tag) tag); [congruence|].
       unfold prelude_events. now eexists. }
  destruct HP as [HR HP]. rewrite HP in H.
  apply upload_loop_shape in H as (done & tail & _ & _ & Htr & _ & Hcase).
  cbn [trace add_events] in Htr.
  exists (prelude_events w owner repo tag (resolve w od)
          ++ flat_map (attach_events rel) done ++ tail).
  split; [now rewrite Htr, <- app_assoc|].
  right. exists oan, od, owner, repo, tag.
  conjs; try assumption; try reflexivity.
  right. eexists. split; [reflexivity|].
  rewrite forallb_app, turns_loop_calls.
  destruct Hcase as [(_ & _ & ->)
                    | (f & ? & ? & _ & _ & [(_ & ->)|(_ & ->)])];
    reflexivity.
Qed.

(** ** The loop, file by file *)

Lemma attached_are_files w rel done s s' :
  for_each done (attach w rel) s = (Ok tt, s') ->
  Forall (Edge.is_file (fs s)) done.
Proof.
  revert s. induction done as [|f done IH]; intros s H; [constructor|].
  simpl in H. unfold bind in H.
  destruct (attach_cases w rel f s)
    as [(_ & E) | [(Hf & _ & E) | (_ & _ & E)]]; rewrite E in H;
    try discriminate H.
  constructor; [exact Hf|]. now apply IH in H.
Qed.

(** What a run of the loop amounts to: the files with an upload call are
    regular files; all of them but possibly the last have their asset
    stored; every line printed is the progress line of a file that is then
    opened; and every file opened gets its upload call, except a last one
    that could not be opened. *)
Lemma loop_summary w rel files s r s' :
  for_each files (attach w rel) s = (r, s') ->
  exists t done,
    trace s' = trace s ++ t /\
    Forall (Edge.is_file (fs s)) (attempted t) /\
    assets s' = assets s ++ map (asset_of (fs s) rel) done /\
    done `prefix_of` attempted t /\
    length (attempted t) <= S (length done) /\
    (r = Ok tt -> done = attempted t /\ done = files) /\
    printed t = map progress_line (opened t) /\
    (opened t = attempted t \/ exists f, opened t = attempted t ++ [f]) /\
    forallb Edge.loop_call t = true.
Proof.
  intros H.
  destruct (upload_loop_outcome w rel files s)
    as [E | (done & f & rest & e & s1 & -> & Hd & Hf & E)];
    rewrite E in H; injection H as <- <-.
  - exists (flat_map (attach_events rel) files), files.
    destruct (turns_read rel files) as (TA & TO & TP & _).
    rewrite TA, TO, TP, turns_loop_calls.
    cbn [trace assets after_uploads]. conjs; try done.
    + now apply attached_are_files in E.
    + lia.
    + now left.
  - pose proof (attached_are_files _ _ _ _ _ Hd) as Hfiles.
    destruct (turns_read rel done) as (TA & TO & TP & _).
    destruct (attach_cases w rel f (after_uploads rel done s))
      as [(_ & E') | [(_ & _ & E') | (Hfile & _ & E')]];
      rewrite E' in Hf; try discriminate Hf; injection Hf as <- <-.
    + exists (flat_map (attach_events rel) done
              ++ [EPrint (progress_line f); EOpen f "rb"]), done.
      rewrite attempted_app, opened_app, printed_app, forallb_app,
        TA, TO, TP, turns_loop_calls.
      cbn. rewrite !app_nil_r, map_app.
      conjs; try done.
      * now rewrite <- app_assoc.
      * lia.
      * right. now exists f.
    + exists (flat_map (attach_events rel) done ++ refused_events rel f), done.
      rewrite attempted_app, opened_app, printed_app, forallb_app,
        TA, TO, TP, turns_loop_calls.
      cbn. rewrite map_app.
      conjs; try done.
      * now rewrite <- app_assoc.
      * apply Forall_app. split; [exact Hfiles|]. now constructor.
      * now exists [f].
      * rewrite length_app. simpl. lia.
      * now left.
Qed.

(** What a run amounts to, whether or not it reaches the loop. *)
Lemma run_summary w s r s' :
  update_release w s = (r, s') ->
  exists t rel done,
    trace s' = trace s ++ t /\
    Forall (Edge.is_file (fs s)) (attempted t) /\
    assets s' = assets s ++ map (asset_of (fs s) rel) done /\
    done `prefix_of` attempted t /\
    length (attempted t) <= S (length done) /\
    (r = Ok tt -> done = attempted t) /\
    printed t = map progress_line (opened t) /\
    (opened t = attempted t \/ exists f, opened t = attempted t ++ [f]).
Proof.
  intros H.
  apply update_release_shape in H
    as [(e & t & -> & -> & Ht & _)
       | (owner & repo & tag & rel & out & HR & H)].
  - exists t, 0, [].
    apply lookup_phase_read in Ht as (A & O & P & _).
    rewrite A, O, P. cbn [assets add_events trace map].
    conjs; try done.
    + now rewrite app_nil_r.
    + simpl. lia.
    + now left.
  - apply loop_summary in H
      as (tl & done & Htr & Hf & Has & Hp & Hl & Hok & Hpr & Hop & _).
    cbn [fs assets trace add_events] in Htr, Hf, Has.
    exists (prelude_events w owner repo tag out ++ tl), rel, done.
    destruct (prelude_read w owner repo tag out) as (PA & PO & PP & _).
    rewrite attempted_app, opened_app, printed_app, PA, PO, PP.
    cbn [app]. conjs; try done.
    + now rewrite Htr, <- app_assoc.
    + intros Hr. now apply Hok.
Qed.

(** ** Failures before the loop *)

(** X1.  When the three variables are set and the owner/name string
    unpacks, and [VERSION] under the repository directory is not a regular
    file (it is missing, or it is a directory), the run ends with the
    file-access error of that path; the attempt to read it is the only call
    made: no credentials are asked for, no network call is made, the output
    directory is not scanned. *)
Theorem version_file_unreadable w s oan rd od owner repo :
  environ w !! "SOURCE_GITHUB_REPO_OWNER_AND_NAME" = Some oan ->
  environ w !! "MAIN_REPO_DIR" = Some rd ->
  environ w !! "OUT_PATH" = Some od ->
  Str.split "/" oan = [owner; repo] ->
  (forall c,
      lookup_node (fs s) (joinpath (resolve w rd) "VERSION") <> Some (File c)) ->
  update_release w s
  = (Raise (OSError (joinpath (resolve w rd) "VERSION")),
     add_events [EReadText (joinpath (resolve w rd) "VERSION")] s) /\
  kind_of (OSError (joinpath (resolve w rd) "VERSION")) = FileAccessError.
Proof.
  intros H1 H2 H3 H4 Hno.
  pose proof (lookup_phase_result w s oan rd od owner repo H1 H2 H3 H4) as HP.
  assert (version_file w = joinpath (resolve w rd) "VERSION") as HF.
  { unfold version_file. now rewrite H2. }
  rewrite HF in HP. unfold text_at in HP.
  destruct (lookup_node (fs s) (joinpath (resolve w rd) "VERSION"))
    as [[c|es]|].
  - now destruct (Hno c).
  - now split.
  - now split.
Qed.

(** X1: a checkout without [VERSION]. *)
Lemma version_file_unreadable_witness :
  update_release Sample.w3 Edge.s_no_version
  = (Raise (OSError ["work"; "repo"; "VERSION"]),
     add_events [EReadText ["work"; "repo"; "VERSION"]] Edge.s_no_version).
Proof.
  destruct (version_file_unreadable Sample.w3 Edge.s_no_version
              "gardener/component-cli" "/work/repo" "/work/out"
              "gardener" "component-cli") as [Hrun _].
  - reflexivity.
  - reflexivity.
  - reflexivity.
  - reflexivity.
  - intros c. discriminate.
  - exact Hrun.
Defined.

(** X2.  The calls of any run follow the order of the script: either none
    is made, or they are a first part of: read the version file, ask for
    the [github_com] credentials, build the repository client for the owner
    and name that the variable unpacks into, look up the release, scan the
    directory named by [OUT_PATH] for [*.gz]; prints, opens and uploads come
    only after all five. *)
Theorem calls_in_fixed_order w s :
  exists t,
    trace (snd (update_release w s)) = trace s ++ t /\
    (t = [] \/
     exists oan od owner repo tag,
       environ w !! "SOURCE_GITHUB_REPO_OWNER_AND_NAME" = Some oan /\
       Str.split "/" oan = [owner; repo] /\
       environ w !! "OUT_PATH" = Some od /\
       (t `prefix_of` prelude_events w owner repo tag (resolve w od) \/
        exists rest,
          t = prelude_events w owner repo tag (resolve w od) ++ rest /\
          forallb Edge.loop_call rest = true)).
Proof. exact (calls_shape w s _ _ (surjective_pairing _)). Qed.

Lemma prefix_In {A : Type} (l1 l2 : list A) x :
  l1 `prefix_of` l2 -> In x l1 -> In x l2.
Proof. intros (k & ->) H. apply in_or_app. now left. Qed.

(** X3.  Every repository client a run builds is built for an owner and a
    name that hold no [/] and that, put around a [/], give back the value of
    the variable; and credentials are only ever asked for under the name
    [github_com]. *)
Theorem repository_call_arguments w s :
  exists t,
    trace (snd (update_release w s)) = trace s ++ t /\
    (forall owner repo,
        In (ERepository owner repo) t ->
        environ w !! "SOURCE_GITHUB_REPO_OWNER_AND_NAME"
        = Some (owner +:+ "/" +:+ repo) /\
        Str.count "/" owner = 0 /\ Str.count "/" repo = 0) /\
    (forall cfg_name, In (EGithubCfg cfg_name) t -> cfg_name = "github_com").
Proof.
  destruct (calls_shape w s _ _ (surjective_pairing _))
    as (t & Ht & [-> | (oan & od & owner & repo & tag & H1 & H4 & _ & Hshape)]).
  - exists []. conjs; [exact Ht | intros ? ? [] | intros ? []].
  - exists t. split; [exact Ht|].
    assert (forall x, In x t -> Edge.loop_call x = false ->
                      In x (prelude_events w owner repo tag (resolve w od)))
      as Hin.
    { intros x Hx Hl.
      destruct Hshape as [Hp | (rest & -> & Hrest)];
        [now apply (prefix_In _ _ _ Hp)|].
      apply in_app_or in Hx as [Hx|Hx]; [exact Hx|].
      rewrite forallb_forall in Hrest. apply Hrest in Hx. congruence. }
    pose proof (StrFacts.join_split "/" oan) as HJ.
    pose proof (StrFacts.split_pieces "/" oan) as HS.
    rewrite H4 in HJ, HS.
    split.
    + intros o r Hor. apply Hin in Hor; [|reflexivity].
      cbn in Hor.
      destruct Hor as [Hor|[Hor|[Hor|[Hor|[Hor|[]]]]]]; try discriminate Hor.
      injection Hor as <- <-.
      inversion HS as [|? ? Ho HS']; subst. inversion HS' as [|? ? Hr _]; subst.
      conjs; [|exact Ho|exact Hr].
      exact H1.
    + intros n Hn. apply Hin in Hn; [|reflexivity].
      cbn in Hn.
      destruct Hn as [Hn|[Hn|[Hn|[Hn|[Hn|[]]]]]]; try discriminate Hn.
      now injection Hn as <-.
Qed.

(** X3: the sample run builds the client for [gardener] and
    [component-cli]. *)
Lemma repository_call_arguments_witness :
  Sample.env !! "SOURCE_GITHUB_REPO_OWNER_AND_NAME"
  = Some ("gardener" +:+ "/" +:+ "component-cli") /\
  Str.count "/" "gardener" = 0 /\ Str.count "/" "component-cli" = 0.
Proof.
  destruct (repository_call_arguments Sample.w3 Sample.s3)
    as (t & Ht & Hrepo & _).
  apply Hrepo.
  assert (t = trace (snd (update_release Sample.w3 Sample.s3))) as ->
      by (symmetry; exact Ht).
  vm_compute. tauto.
Defined.

(** ** The output directory *)

(** X4.  When the path that [OUT_PATH] resolves to is not a directory (it
    does not exist, or it is a file), the scan finds nothing and raises
    nothing: a run whose earlier steps succeed ends without an error, having
    made the five calls that lead to the loop and no other. *)
Theorem output_dir_missing_is_success w s owner repo tag rel out :
  reaches_loop w s owner repo tag rel out ->
  (forall es, lookup_node (fs s) out <> Some (Dir es)) ->
  update_release w s
  = (Ok tt, add_events (prelude_events w owner repo tag out) s).
Proof.
  intros HR Hno.
  rewrite (update_release_reaches _ _ _ _ _ _ _ HR).
  unfold output_files, listdir.
  destruct (lookup_node (fs s) out) as [[c|es]|]; try reflexivity.
  now destruct (Hno es).
Qed.

(** X4: [OUT_PATH] names [/work/dist], which does not exist. *)
Lemma output_dir_missing_is_success_witness :
  fst (update_release Edge.w_no_dir Sample.s3) = Ok tt /\
  attempted (trace (snd (update_release Edge.w_no_dir Sample.s3))) = [].
Proof.
  rewrite (output_dir_missing_is_success Edge.w_no_dir Sample.s3
             "gardener" "component-cli" "v1.2.3" 42 ["work"; "dist"]).
  - now split.
  - exists "gardener/component-cli", "/work/repo", "/work/dist", "token", 7.
    now conjs.
  - intros es. discriminate.
Defined.

(** X5.  An entry of the output directory that is a directory and whose
    name ends in [.gz] is enumerated like a file; no upload call is ever
    made for it, and no run that reaches the loop ends without an error. *)
Theorem directory_artifact_fails_run w s owner repo tag rel out n es r s' :
  reaches_loop w s owner repo tag rel out ->
  In n (listdir (fs s) out) ->
  Str.ends_with ".gz" n ->
  lookup_node (fs s) (joinpath out n) = Some (Dir es) ->
  update_release w s = (r, s') ->
  In (joinpath out n) (output_files (fs s) out) /\
  (exists e, r = Raise e) /\
  exists t, trace s' = trace s ++ t /\ ~ In (joinpath out n) (attempted t).
Proof.
  intros HR Hn Hs Hdir H.
  assert (In (joinpath out n) (output_files (fs s) out)) as Hin.
  { rewrite output_files_gz_children. apply gz_children_spec. now exists n. }
  assert (~ Edge.is_file (fs s) (joinpath out n)) as Hnf.
  { unfold Edge.is_file. rewrite Hdir. discriminate. }
  rewrite (update_release_reaches _ _ _ _ _ _ _ HR) in H.
  apply loop_summary in H
    as (tl & done & Htr & Hf & _ & _ & _ & Hok & _).
  cbn [fs trace add_events] in Htr, Hf.
  conjs; [exact Hin | |].
  - destruct r as [[]|e]; [|now exists e].
    destruct (Hok eq_refl) as [Hd1 Hd]. exfalso. apply Hnf.
    rewrite Forall_forall in Hf. apply Hf. apply list_elem_of_In.
    now rewrite <- Hd1, Hd.
  - exists (prelude_events w owner repo tag out ++ tl).
    split; [now rewrite Htr, <- app_assoc|].
    destruct (prelude_read w owner repo tag out) as (PA & _).
    rewrite attempted_app, PA. cbn [app]. intros Hat. apply Hnf.
    rewrite Forall_forall in Hf. apply Hf. now apply list_elem_of_In.
Qed.

(** X5: [b.gz] is a directory between [a.gz] and [c.gz]; the run ends with
    the error of opening it. *)
Lemma directory_artifact_fails_run_witness :
  exists e, fst (update_release Sample.w3 Edge.s_with_dir) = Raise e.
Proof.
  destruct (directory_artifact_fails_run Sample.w3 Edge.s_with_dir
              "gardener" "component-cli" "v1.2.3" 42 Sample.out "b.gz"
              [("inner.gz", File "I")]
              (fst (update_release Sample.w3 Edge.s_with_dir))
              (snd (update_release Sample.w3 Edge.s_with_dir)))
    as (_ & He & _).
  - exists "gardener/component-cli", "/work/repo", "/work/out", "token", 7.
    now conjs.
  - vm_compute. tauto.
  - now exists "b".
  - reflexivity.
  - apply surjective_pairing.
  - exact He.
Defined.

(** ** The assets on the release *)

(** X6.  A run never removes or changes an asset: the assets at the end
    are those at the start followed by the ones the run stored, in upload
    order.  Each stored asset belongs to a regular file for which an upload
    call was made and carries the content type [application/gzip], the base
    name and the content of that file; every upload call but possibly the
    last has stored its asset, and all have when the run ends without an
    error. *)
Theorem assets_only_grow w s r s' :
  update_release w s = (r, s') ->
  exists t rel done,
    trace s' = trace s ++ t /\
    assets s' = assets s ++ map (asset_of (fs s) rel) done /\
    Forall (Edge.is_file (fs s)) done /\
    done `prefix_of` attempted t /\
    length (attempted t) <= S (length done) /\
    (r = Ok tt -> done = attempted t).
Proof.
  intros H.
  apply run_summary in H
    as (t & rel & done & Ht & Hf & Has & Hp & Hl & Hok & _).
  exists t, rel, done. conjs; try assumption.
  destruct Hp as (k & Hk). rewrite Hk in Hf.
  now apply Forall_app in Hf as [Hf _].
Qed.

(** X6: the asset that was on the release before the run is still its
    first asset after the refused third upload. *)
Lemma assets_only_grow_witness :
  [Edge.notes] `prefix_of` assets (snd (update_release Sample.w5 Edge.s5_notes)).
Proof.
  destruct (assets_only_grow Sample.w5 Edge.s5_notes
              (fst (update_release Sample.w5 Edge.s5_notes))
              (snd (update_release Sample.w5 Edge.s5_notes)))
    as (t & rel & done & _ & Has & _).
  - apply surjective_pairing.
  - rewrite Has. now eexists.
Defined.

Lemma reaches_loop_fs w s s1 owner repo tag rel out :
  fs s1 = fs s ->
  reaches_loop w s owner repo tag rel out ->
  reaches_loop w s1 owner repo tag rel out.
Proof.
  intros Hfs
    (oan & rd & od & cfg & gr & H1 & H2 & H3 & H4 & H5 & H6 & H7 & H8 & ->).
  exists oan, rd, od, cfg, gr. rewrite Hfs. now conjs.
Qed.

(** X7.  The script keeps no record of what it has attached and does not
    look at the assets of the release: after a run that attached something,
    a second run starts again with the first enumerated file; on a hosting
    side that refuses an asset whose name is taken on the release, that
    second run ends with the refusal of this first upload, having stored
    nothing. *)
Theorem second_run_is_refused w s s1 r s2 :
  (forall stored a,
      (exists b, In b stored /\ a_release b = a_release a /\
                 a_name b = a_name a) ->
      upload_accepts w stored a = false) ->
  update_release w s = (Ok tt, s1) ->
  assets s1 <> assets s ->
  update_release w s1 = (r, s2) ->
  exists f t,
    r = Raise (UploadRejected (name f)) /\
    trace s2 = trace s1 ++ t /\
    attempted t = [f] /\
    In (name f) (map a_name (assets s1)) /\
    assets s2 = assets s1.
Proof.
  intros Hhost H1 Hnew H2.
  apply update_release_shape in H1
    as [(e & ? & He & _) | (owner & repo & tag & rel & out & HR & H1)];
    [discriminate He|].
  pose proof (attached_are_files _ _ _ _ _ H1) as Hfiles.
  apply upload_loop_shape in H1 as (done & tail & Hfs & Has & _ & _ & Hc).
  destruct Hc as [(_ & -> & _) | (? & ? & ? & Hr & _)]; [|discriminate Hr].
  cbn [fs assets add_events] in Hfs, Has, Hfiles.
  destruct (output_files (fs s) out) as [|f rest] eqn:Eout.
  { exfalso. apply Hnew. rewrite Has. cbn. now rewrite app_nil_r. }
  pose proof (reaches_loop_fs _ _ _ _ _ _ _ _ Hfs HR) as HR1.
  rewrite (update_release_reaches _ _ _ _ _ _ _ HR1), Hfs, Eout in H2.
  cbn [for_each] in H2. unfold bind at 1 in H2.
  inversion Hfiles as [|? ? Hf _]; subst.
  destruct (attach_cases w rel f
              (add_events (prelude_events w owner repo tag out) s1))
    as [(Hno & _) | [(_ & Hacc & _) | (_ & _ & E)]].
  - exfalso. apply Hno. cbn [fs add_events]. rewrite Hfs. exact Hf.
  - exfalso. rewrite Hhost in Hacc; [discriminate Hacc|].
    exists (asset_of (fs s) rel f). cbn [assets add_events].
    rewrite Has. conjs; try reflexivity.
    apply in_or_app. right. now left.
  - rewrite E in H2. injection H2 as <- <-.
    exists f, (prelude_events w owner repo tag out ++ refused_events rel f).
    cbn [trace assets add_handle add_events].
    conjs; try reflexivity.
    + now rewrite <- app_assoc.
    + rewrite Has, map_app. apply in_or_app. right. now left.
Qed.

(** X7: the second run on the three-entry directory ends with the refusal
    of [a.tar.gz]. *)
Lemma second_run_is_refused_witness :
  exists f,
    fst (update_release Edge.w_taken
           (snd (update_release Edge.w_taken Sample.s3)))
    = Raise (UploadRejected (name f)).
Proof.
  destruct (second_run_is_refused Edge.w_taken Sample.s3
              (snd (update_release Edge.w_taken Sample.s3))
              (fst (update_release Edge.w_taken
                      (snd (update_release Edge.w_taken Sample.s3))))
              (snd (update_release Edge.w_taken
                      (snd (update_release Edge.w_taken Sample.s3)))))
    as (f & t & Hr & _).
  - intros stored a (b & Hb & _ & Hn).
    cbn [upload_accepts Edge.w_taken Sample.world_of].
    unfold Edge.refuse_taken. apply negb_false_iff, existsb_exists.
    exists b. split; [exact Hb | now apply String.eqb_eq].
  - vm_compute. reflexivity.
  - vm_compute. discriminate.
  - apply surjective_pairing.
  - now exists f.
Defined.

(** ** Standard output *)

(** X8.  The script prints nothing but progress lines: the lines of a run
    are, in order, the progress lines of the files it opens, one line for
    each; and every file opened gets its upload call, except a last one
    whose open raised. *)
Theorem printed_lines_are_progress_lines w s :
  exists t,
    trace (snd (update_release w s)) = trace s ++ t /\
    printed t = map progress_line (opened t) /\
    (opened t = attempted t \/ exists f, opened t = attempted t ++ [f]).
Proof.
  destruct (run_summary w s _ _ (surjective_pairing _))
    as (t & _ & _ & Ht & _ & _ & _ & _ & _ & Hp & Ho).
  now exists t.
Qed.

(** ** The owner/name split *)

(** X9.  Splitting at a separator loses nothing: there is one piece more
    than there are separators in the string, no piece holds the separator,
    and the pieces joined with the separator are the string again. *)
Theorem split_pieces_count_and_join sep s :
  length (Str.split sep s) = S (Str.count sep s) /\
  Forall (fun piece => Str.count sep piece = 0) (Str.split sep s) /\
  Str.join (String sep EmptyString) (Str.split sep s) = s.
Proof.
  conjs.
  - apply StrFacts.split_length.
  - apply StrFacts.split_pieces.
  - apply StrFacts.join_split.
Qed.
